(** * Crime Data Analysis Dashboard: aggregation pipeline of [app.py]

    The script loads [data/crime_data.csv] into a pandas DataFrame and, on
    the "Data Analysis" page, derives five views from it with
    [groupby(...)["crime_count"].sum()], [sort_values], [head], [iloc] and
    one in-place [Series.__setitem__].

    Modelling choices (all taken from the pandas calls the script makes):
    - a DataFrame is the list of its rows; a cell of a key column may be
      missing (NaN), which is what [data.isnull().sum()] on the overview
      page counts, and is [None] here;
    - [crime_count] is an int64 column.  The views are defined twice: with
      exact sums ([station_counts], ...) and in the column's own arithmetic,
      where every addition wraps ([station_counts64], ...), which is what
      the script computes.  The two agree on a table that is
      [within_int64], and that is a hypothesis of every statement about the
      value of a total; that counts are not negative is the data model's
      invariant and a hypothesis where a statement needs it;
    - a coordinate is a non-NaN float: an arbitrary type [F] with the
      decidable equality and the comparison that pandas uses on it;
    - a Series is the list of its (label, value) pairs in index order. *)

From Stdlib Require Import ZArith Lia.
From stdpp Require Import base option list sets sorting strings pretty.

Local Open Scope Z_scope.
#[local] Set Warnings "-clear-no-such-hyp".


(** ** Orderable group keys *)

(** The comparison pandas sorts group keys with ([groupby(sort=True)]). *)
Class KeyOrd (K : Type) := key_leb : K → K → bool.
Global Hint Mode KeyOrd ! : typeclass_instances.

Global Instance Z_key_ord : KeyOrd Z := Z.leb.
Global Instance string_key_ord : KeyOrd string := String.leb.

(** Tuples of keys (a MultiIndex) are ordered lexicographically. *)
Global Instance prod_key_ord {A B} `{EqDecision A, KeyOrd A, KeyOrd B} :
  KeyOrd (A * B) :=
  λ p q, if decide (p.1 = q.1) then key_leb p.2 q.2 else key_leb p.1 q.1.

(** ** Series: labelled integer values in index order *)

Abbreviation series K := (list (K * Z)).

Definition Zsum (l : list Z) : Z := foldr Z.add 0 l.

(** [Series.sum()] *)
Definition series_sum {K} (s : series K) : Z := Zsum s.*2.

(** [Series.head(n)] and [Series.iloc[n:]] as values. *)
Definition head {K} (n : nat) (s : series K) : series K := take n s.
Definition iloc_from {K} (n : nat) (s : series K) : series K := drop n s.
Global Arguments head : simpl never.
Global Arguments iloc_from : simpl never.

(** The value an int64 cell holds after an addition that left the range:
    the result modulo 2^64, read as a signed number. *)
Definition wrap64 (z : Z) : Z :=
  (z + 9223372036854775808) `mod` 18446744073709551616 - 9223372036854775808.

Section SeriesOps.
Context {K : Type} `{EqDecision K}.

(** Position of a label in an index ([Index.get_loc]). *)
Fixpoint get_loc (k : K) (idx : list K) : option nat :=
  match idx with
  | [] => None
  | k' :: idx' => if decide (k = k') then Some 0%nat else S <$> get_loc k idx'
  end.

(** [s[k] = v]: overwrite the value at an existing label, else enlarge the
    series by one entry at its end. *)
Definition setitem (k : K) (v : Z) (s : series K) : series K :=
  match get_loc k s.*1 with
  | Some i => <[i := (k, v)]> s
  | None => s ++ [(k, v)]
  end.

(** The value at a label, 0 when the label is absent ([s.get(k, 0)]). *)
Fixpoint bucket (k : K) (s : series K) : Z :=
  match s with
  | [] => 0
  | (k', v) :: s' => if decide (k = k') then v else bucket k s'
  end.

(** One step of the group-wise summation: add [v] to the bucket of [k],
    opening a new bucket after the ones seen so far. *)
Fixpoint accumulate (k : K) (v : Z) (acc : series K) : series K :=
  match acc with
  | [] => [(k, v)]
  | (k', s) :: acc' =>
      if decide (k = k') then (k', s + v) :: acc'
      else (k', s) :: accumulate k v acc'
  end.

(** The same step in the column's arithmetic: a bucket starts at 0 and
    every addition wraps. *)
Fixpoint accumulate64 (k : K) (v : Z) (acc : series K) : series K :=
  match acc with
  | [] => [(k, wrap64 v)]
  | (k', s) :: acc' =>
      if decide (k = k') then (k', wrap64 (s + v)) :: acc'
      else (k', s) :: accumulate64 k v acc'
  end.
End SeriesOps.

(** Insertion sort, stable: an element goes before the first one it is
    below or equal to. *)
Section InsertionSort.
Context {A : Type} (le : A → A → bool).

Fixpoint insert_sorted (x : A) (l : list A) : list A :=
  match l with
  | [] => [x]
  | y :: l' => if le x y then x :: l else y :: insert_sorted x l'
  end.

Definition isort (l : list A) : list A := foldr insert_sorted [] l.
End InsertionSort.

(** [sort_values(ascending=False)]: pandas reverses the values, sorts them
    in ascending order and reverses the result.  Equal values keep their
    previous relative order here; numpy's default quicksort does not
    promise an order among them. *)
Definition sort_values_desc {K} (s : series K) : series K :=
  reverse (isort (λ a b, a.2 <=? b.2) (reverse s)).

(** ** The loaded table *)

Section Dashboard.
Context {F : Type} `{EqDecision F, KeyOrd F}.

Record row : Type := Row {
  station : option string;
  category : option string;
  location_x : option F;
  location_y : option F;
  year : option Z;
  crime_count : Z
}.

Abbreviation table := (list row).

(** [data.groupby(keys)["crime_count"].sum()]: rows with a missing key
    are dropped (dropna=True), the sums are accumulated per key and the
    result is indexed by the keys in ascending order. *)
Definition group_step {K} `{EqDecision K} (key : row → option K)
    (acc : series K) (r : row) : series K :=
  match key r with
  | Some k => accumulate k (crime_count r) acc
  | None => acc
  end.

Definition group_sums {K} `{EqDecision K} (key : row → option K) (t : table)
    : series K :=
  foldl (group_step key) [] t.

Definition groupby_sum {K} `{EqDecision K, KeyOrd K} (key : row → option K)
    (t : table) : series K :=
  isort (λ a b, key_leb a.1 b.1) (group_sums key t).

(** The grouping as pandas computes it on the int64 column. *)
Definition group_step64 {K} `{EqDecision K} (key : row → option K)
    (acc : series K) (r : row) : series K :=
  match key r with
  | Some k => accumulate64 k (crime_count r) acc
  | None => acc
  end.

Definition group_sums64 {K} `{EqDecision K} (key : row → option K) (t : table)
    : series K :=
  foldl (group_step64 key) [] t.

Definition groupby_sum64 {K} `{EqDecision K, KeyOrd K} (key : row → option K)
    (t : table) : series K :=
  isort (λ a b, key_leb a.1 b.1) (group_sums64 key t).

(** Group keys of the two multi-column groupings. *)
Definition station_location (r : row) : option (string * F * F) :=
  s ← station r; x ← location_x r; y ← location_y r; Some (s, x, y).

Definition location (r : row) : option (F * F) :=
  x ← location_x r; y ← location_y r; Some (x, y).

(** ** The five derived views (as values) *)

Definition station_totals (t : table) : series string :=
  sort_values_desc (groupby_sum station t).

Definition station_counts (t : table) : series string :=
  head 15 (station_totals t).

Definition category_counts (t : table) : series string :=
  sort_values_desc (groupby_sum category t).

Definition others (t : table) : Z :=
  series_sum (iloc_from 8 (category_counts t)).

Definition top_categories (t : table) : series string :=
  let top := head 8 (category_counts t) in
  if 0 <? others t then setitem "Others" (others t) top else top.

Definition yearly_trend (t : table) : series Z := groupby_sum year t.

Definition station_locations (t : table) : series (string * F * F) :=
  groupby_sum station_location t.

Definition hotspot_totals (t : table) : series (F * F) :=
  sort_values_desc (groupby_sum location t).

Definition hotspot_data (t : table) : series (F * F) :=
  head 20 (hotspot_totals t).

(** ** The views in the column's arithmetic

    The same pipeline as the script runs it on the int64 column: the
    additions of the grouping and of [Series.sum()] wrap. *)

(** [Series.sum()] of int64 values. *)
Definition sum64 (vs : list Z) : Z := foldl (λ acc v, wrap64 (acc + v)) 0 vs.

Definition station_counts64 (t : table) : series string :=
  head 15 (sort_values_desc (groupby_sum64 station t)).

Definition category_counts64 (t : table) : series string :=
  sort_values_desc (groupby_sum64 category t).

Definition others64 (t : table) : Z :=
  sum64 (iloc_from 8 (category_counts64 t)).*2.

Definition top_categories64 (t : table) : series string :=
  let top := head 8 (category_counts64 t) in
  if 0 <? others64 t then setitem "Others" (others64 t) top else top.

Definition yearly_trend64 (t : table) : series Z := groupby_sum64 year t.

Definition station_locations64 (t : table) : series (string * F * F) :=
  groupby_sum64 station_location t.

Definition hotspot_data64 (t : table) : series (F * F) :=
  head 20 (sort_values_desc (groupby_sum64 location t)).

(** ** The vocabulary of the specification

    What "group by a key and sum [crime_count]", "sorted in descending
    order" and "grand total" mean, stated without reference to how the
    views are computed. *)

(** [data["crime_count"].sum()] over the whole table. *)
Definition total_crime_count (t : table) : Z := Zsum (crime_count <$> t).

(** The sum of [crime_count] over the rows whose key is [k]. *)
Definition sum_where {K} `{EqDecision K} (key : row → option K) (k : K)
    (t : table) : Z :=
  Zsum (crime_count <$> filter (λ r, key r = Some k) t).

(** [g] is the grouping of [t] by [key]: one entry per distinct key that
    occurs in [t], holding the sum of the rows with that key. *)
Definition grouped_by {K} `{EqDecision K} (key : row → option K) (t : table)
    (g : series K) : Prop :=
  NoDup g.*1 ∧
  ∀ k v, (k, v) ∈ g ↔ (∃ r, r ∈ t ∧ key r = Some k) ∧ v = sum_where key k t.

Definition non_increasing {K} (s : series K) : Prop :=
  Sorted (λ a b, b.2 ≤ a.2) s.

Definition descending_sort_of {K} (l g : series K) : Prop :=
  l ≡ₚ g ∧ non_increasing l.

(** No sum of counts of the table can leave the int64 range: the absolute
    values of [crime_count] sum to less than 2^63. *)
Definition abs_total (t : table) : Z :=
  Zsum ((λ r, Z.abs (crime_count r)) <$> t).

Definition within_int64 (t : table) : Prop :=
  abs_total t < 9223372036854775808.

(** The data model's invariant on counts, and rows without missing
    cells. *)
Definition nonneg_counts (t : table) : Prop :=
  Forall (λ r, 0 ≤ crime_count r) t.

Definition complete (r : row) : Prop :=
  is_Some (station r) ∧ is_Some (category r) ∧ is_Some (location_x r) ∧
  is_Some (location_y r) ∧ is_Some (year r).


(** ** The script's objects and effects

    [data] and every Series the page builds are objects of the
    interpreter's store.  A Series object owns an immutable index and
    refers to a values buffer; [head] and [iloc] return a new Series
    object over the SAME buffer (a view), so an assignment through the
    view is seen by the Series it was taken from (pandas without
    copy-on-write; with it the write goes to a copy, which changes nothing
    for the object it is made through).  What the script hands to streamlit
    and matplotlib is appended to the screen.  Of the ways the plotting
    calls can refuse what they are handed, the model has the bar chart of an
    empty series and the pie chart with a negative wedge; no statement below
    says that the analysis page ends normally, nor a page that shows the
    files of the screenshots folder. *)

Definition loc : Type := nat.

Inductive object : Type :=
  | ODataFrame (t : table)
  | OValues (vs : list Z).

Inductive figure : Type :=
  | BarFig (title ylabel : string) (bars : series string)
  | PieFig (title legend_title : string) (wedges : series string)
  | LineFig (title xlabel ylabel : string) (points : series Z).

Inductive frame_display : Type :=
  | FrameRows (rows : table)
  | FrameNullCounts (counts : list (string * nat))
  | FrameDescribe (t : table)
  | FrameStationLocations (rows : series (string * F * F))
  | FrameHotspots (rows : series (F * F)).

Inductive widget : Type :=
  | StSidebarTitle (s : string)
  | StTitle (s : string)
  | StSubheader (s : string)
  | StMarkdown (s : string)
  | StWrite (s : string)
  | StWriteList (l : list string)
  | StImage (path caption : string)
  | StWarning (s : string)
  | StInfo (s : string)
  | StDataframe (d : frame_display)
  | StPyplot (fig : figure)
  | StMap (lat_lon : list (F * F)).

Record state : Type := State {
  heap : list object;
  screen : list widget
}.

(** State and failure: [None] is a Python exception raised by an
    operation of this model (a dangling reference, an index out of the
    buffer's bounds). *)
Definition M (A : Type) : Type := state → option (A * state).

#[export] Instance M_ret : MRet M := λ A a σ, Some (a, σ).
#[export] Instance M_bind : MBind M := λ A B k m σ,
  match m σ with
  | Some (a, σ') => k a σ'
  | None => None
  end.

Definition raise {A} : M A := λ _, None.

Definition alloc (o : object) : M loc := λ σ,
  Some (length (heap σ), State (heap σ ++ [o]) (screen σ)).

Definition read_frame (l : loc) : M table := λ σ,
  match heap σ !! l with
  | Some (ODataFrame t) => Some (t, σ)
  | _ => None
  end.

Definition read_values (l : loc) : M (list Z) := λ σ,
  match heap σ !! l with
  | Some (OValues vs) => Some (vs, σ)
  | _ => None
  end.

Definition write_value (l : loc) (i : nat) (v : Z) : M () := λ σ,
  match heap σ !! l with
  | Some (OValues vs) =>
      if decide (i < length vs)%nat
      then Some ((), State (<[l := OValues (<[i := v]> vs)]> (heap σ)) (screen σ))
      else None
  | _ => None
  end.

Definition emit (w : widget) : M () := λ σ,
  Some ((), State (heap σ) (screen σ ++ [w])).

(** A Series object: its index, its values buffer and where its window
    on the buffer starts. *)
Record series_ref (K : Type) : Type := SeriesRef {
  sr_index : list K;
  sr_values : loc;
  sr_offset : nat
}.
Global Arguments SeriesRef {_} _ _ _.
Global Arguments sr_index {_} _.
Global Arguments sr_values {_} _.
Global Arguments sr_offset {_} _.

(** The (label, value) pairs a Series object currently denotes. *)
Definition items {K} (s : series_ref K) : M (series K) :=
  vs ← read_values (sr_values s);
  let window := take (length (sr_index s)) (drop (sr_offset s) vs) in
  if decide (length window = length (sr_index s))
  then mret (zip (sr_index s) window)
  else raise.

Definition new_series {K} (s : series K) : M (series_ref K) :=
  l ← alloc (OValues s.*2);
  mret (SeriesRef s.*1 l 0).

Definition groupby_sum_m {K} `{EqDecision K, KeyOrd K}
    (key : row → option K) (data : loc) : M (series_ref K) :=
  t ← read_frame data;
  new_series (groupby_sum64 key t).

Definition sort_values_m {K} (s : series_ref K) : M (series_ref K) :=
  it ← items s;
  new_series (sort_values_desc it).

Definition head_m {K} (n : nat) (s : series_ref K) : M (series_ref K) :=
  mret (SeriesRef (take n (sr_index s)) (sr_values s) (sr_offset s)).

Definition iloc_from_m {K} (n : nat) (s : series_ref K) : M (series_ref K) :=
  mret (SeriesRef (drop n (sr_index s)) (sr_values s)
          (sr_offset s + n `min` length (sr_index s))).

Definition sum_m {K} (s : series_ref K) : M Z :=
  it ← items s;
  mret (sum64 it.*2).

(** [s[k] = v] on a Series object: an existing label is written in place
    in the buffer; a new label makes the object a longer Series over a
    fresh buffer. *)
Definition setitem_m {K} `{EqDecision K} (k : K) (v : Z) (s : series_ref K)
    : M (series_ref K) :=
  match get_loc k (sr_index s) with
  | Some i => write_value (sr_values s) (sr_offset s + i) v;; mret s
  | None => it ← items s; new_series (it ++ [(k, v)])
  end.

(** [reset_index()] and [rename(columns=...)] build a new frame. *)
Definition reset_index_m {K} (s : series_ref K) : M (series_ref K) :=
  it ← items s;
  new_series it.

Definition rename_m {K} (s : series_ref K) : M (series_ref K) :=
  it ← items s;
  new_series it.

(** ** The pages *)

Inductive page : Type :=
  | Home
  | DatasetOverview
  | DataAnalysis
  | Screenshots
  | AboutResearch.

(** What a call into the file system gives the script. *)
Inductive outcome (A : Type) : Type :=
  | Returned (a : A)
  | Raised (exn : string).
Global Arguments Returned {_} _.
Global Arguments Raised {_} _.

Record environment : Type := Environment {
  read_csv : outcome table;          (* pd.read_csv("data/crime_data.csv") *)
  listdir : option (list string)     (* the screenshots folder, if it exists *)
}.

Definition load_data (env : environment) : outcome table := read_csv env.

(** [try: data = load_data() / except: data = None]; [data] is the
    reference to the frame object. *)
Definition try_load_data (env : environment) : M (option loc) :=
  match load_data env with
  | Returned t => l ← alloc (ODataFrame t); mret (Some l)
  | Raised _ => mret None
  end.

Definition home_markdown : string :=
"
    ### Welcome
    This dashboard showcases my research on **crime analysis and hotspot identification**
    using data visualization and statistical analysis.

    It is based on recorded crime data containing:
    - Police stations
    - Crime categories
    - Geographic coordinates
    - Yearly crime counts
    ".

Definition home_page : M () :=
  emit (StTitle "📊 Crime Data Analysis Dashboard");;
  emit (StSubheader "Exploratory Analysis of Crime Patterns in Mpumalanga");;
  emit (StMarkdown home_markdown);;
  emit (StImage "assets/cover.jpeg" "Crime Analysis Overview").

Definition column_names : list string :=
  ["station"; "category"; "location_x"; "location_y"; "year"; "crime_count"].

Definition count_missing {A} (col : row → option A) (t : table) : nat :=
  length (filter (λ r, col r = None) t).

(** [data.isnull().sum()]; an int64 column has no missing cell. *)
Definition null_counts (t : table) : list (string * nat) :=
  [("station", count_missing station t);
   ("category", count_missing category t);
   ("location_x", count_missing location_x t);
   ("location_y", count_missing location_y t);
   ("year", count_missing year t);
   ("crime_count", 0%nat)].

Definition dataset_overview_page (data : option loc) : M () :=
  emit (StTitle "📁 Dataset Overview");;
  match data with
  | Some data =>
      t ← read_frame data;
      emit (StWrite "### Sample Records");;
      emit (StDataframe (FrameRows (take 50 t)));;
      emit (StWrite "### Dataset Shape");;
      emit (StWrite ("Rows: " +:+ pretty (length t)));;
      emit (StWrite ("Columns: " +:+ pretty (length column_names)));;
      emit (StWrite "### Column Names");;
      emit (StWriteList column_names);;
      emit (StWrite "### Missing Values");;
      emit (StDataframe (FrameNullCounts (null_counts t)));;
      emit (StWrite "### Basic Statistics");;
      emit (StDataframe (FrameDescribe t))
  | None =>
      emit (StWarning "Dataset not found. Please add crime_data.csv in the data folder.")
  end.

(** [st.map] reads [location_y] as latitude and [location_x] as
    longitude. *)
Definition lat_lon (p : F * F) : F * F := (p.2, p.1).

(** The assignments of the analysis page, one definition per variable
    of the script. *)

Definition station_counts_m (data : loc) : M (series_ref string) :=
  g ← groupby_sum_m station data;
  s ← sort_values_m g;
  head_m 15 s.

Definition category_counts_m (data : loc) : M (series_ref string) :=
  g ← groupby_sum_m category data;
  sort_values_m g.

Definition top_categories_m (category_counts : series_ref string)
    : M (series_ref string) :=
  top_categories ← head_m 8 category_counts;
  rest ← iloc_from_m 8 category_counts;
  others ← sum_m rest;
  if 0 <? others
  then setitem_m "Others" others top_categories
  else mret top_categories.

Definition yearly_trend_m (data : loc) : M (series_ref Z) :=
  groupby_sum_m year data.

Definition station_locations_m (data : loc) : M (series_ref (string * F * F)) :=
  g ← groupby_sum_m station_location data;
  reset_index_m g.

Definition hotspot_data_m (data : loc) : M (series_ref (F * F)) :=
  g ← groupby_sum_m location data;
  hotspot_data ← reset_index_m g;
  s ← sort_values_m hotspot_data;
  head_m 20 s.

(** The five assignments alone, in the order of the script, without the
    toolkit calls between them. *)
Definition aggregations (data : loc) : M () :=
  station_counts_m data;;
  (category_counts_m data ≫= top_categories_m);;
  yearly_trend_m data;;
  station_locations_m data;;
  hotspot_data_m data;;
  mret ().

(** [series.plot(kind="bar")] with [st.pyplot]: pandas raises on a series
    without entries. *)
Definition bar_chart (title ylabel : string) (bars : series string) : M () :=
  match bars with
  | [] => raise
  | _ => emit (StPyplot (BarFig title ylabel bars))
  end.

(** [ax.pie] with [st.pyplot]: matplotlib raises on a negative wedge. *)
Definition pie_chart (title legend_title : string) (wedges : series string)
    : M () :=
  if bool_decide (Forall (λ w : string * Z, 0 ≤ w.2) wedges)
  then emit (StPyplot (PieFig title legend_title wedges))
  else raise.

(** The five blocks of the analysis page, in the order of the script. *)

Definition crime_by_station (data : loc) : M () :=
  emit (StSubheader "🏢 Crime by Police Station");;
  station_counts ← station_counts_m data;
  bars ← items station_counts;
  bar_chart "Top 15 Police Stations by Crime Volume" "Total Crime Count" bars.

Definition crime_by_category (data : loc) : M () :=
  emit (StSubheader "📂 Crime by Category (Clear View)");;
  category_counts ← category_counts_m data;
  top_categories ← top_categories_m category_counts;
  wedges ← items top_categories;
  pie_chart "Crime Distribution by Category (Top Categories)" "Categories" wedges.

Definition crime_trend (data : loc) : M () :=
  emit (StSubheader "📅 Crime Trend Over Years");;
  yearly_trend ← yearly_trend_m data;
  points ← items yearly_trend;
  emit (StPyplot (LineFig "Yearly Crime Trend" "Year" "Total Crimes" points)).

Definition station_points (rows : series (string * F * F)) : list (F * F) :=
  (λ r, lat_lon (r.1.1.2, r.1.2)) <$> rows.

Definition hotspot_points (rows : series (F * F)) : list (F * F) :=
  (λ r, lat_lon r.1) <$> rows.

Definition stations_map (data : loc) : M () :=
  emit (StSubheader "📍 All Police Stations Map");;
  station_locations ← station_locations_m data;
  rows ← items station_locations;
  emit (StDataframe (FrameStationLocations rows));;
  emit (StSubheader "🗺️ Police Stations Map");;
  renamed ← rename_m station_locations;
  rows ← items renamed;
  emit (StMap (station_points rows)).

Definition hotspots (data : loc) : M () :=
  emit (StSubheader "🔥 Top Crime Hotspots");;
  hotspot_data ← hotspot_data_m data;
  rows ← items hotspot_data;
  emit (StDataframe (FrameHotspots rows));;
  emit (StSubheader "🚨 Hotspot Map");;
  renamed ← rename_m hotspot_data;
  rows ← items renamed;
  emit (StMap (hotspot_points rows)).

Definition data_analysis (data : loc) : M () :=
  crime_by_station data;;
  crime_by_category data;;
  crime_trend data;;
  stations_map data;;
  hotspots data.

(** A Series object [s] denotes the series [it] in the store [h], its
    buffer having been allocated at address [base] or later. *)
Definition denotes {K} (base : nat) (h : list object) (s : series_ref K)
    (it : series K) : Prop :=
  sr_index s = it.*1 ∧ (base ≤ sr_values s)%nat ∧
  ∃ vs, h !! sr_values s = Some (OValues vs) ∧
        take (length it) (drop (sr_offset s) vs) = it.*2.

(** [m] run on the store [h] ends normally with a Series object that
    denotes [it]; it may have allocated objects and written to those, and
    every object of [h] is as it was. *)
Definition computes {K} (m : M (series_ref K)) (h : list object)
    (it : series K) : Prop :=
  ∀ scr, ∃ s h', m (State h scr) = Some (s, State h' scr) ∧
                 denotes (length h) h' s it ∧
                 ∀ l o, h !! l = Some o → h' !! l = Some o.

(** A block of the page, whenever it ends normally on a store that holds
    the table at [data], leaves every object of that store as it was. *)
Definition block_frame (m : loc → M ()) : Prop :=
  ∀ h scr data t σ', h !! data = Some (ODataFrame t) →
    m data (State h scr) = Some ((), σ') →
    ∀ l o, h !! l = Some o → heap σ' !! l = Some o.

(** [m] run in [σ] ends normally with a Series object that reads as
    [it]. *)
Definition returns_series {K} (m : M (series_ref K)) (σ : state)
    (it : series K) : Prop :=
  ∃ s σ', m σ = Some (s, σ') ∧ items s σ' = Some (it, σ').

Definition data_analysis_page (data : option loc) : M () :=
  emit (StTitle "📈 Data Analysis & Trends");;
  match data with
  | Some data => data_analysis data
  | None => emit (StWarning "No data available for analysis.")
  end.

Definition screenshots_markdown : string :=
"
    This section presents screenshots of
    model comparison of models developed during research.
    ".

Definition screenshots_page (env : environment) : M () :=
  emit (StTitle "🖼️ Research Screenshots");;
  emit (StMarkdown screenshots_markdown);;
  match listdir env with
  | Some images =>
      match images with
      | [] => emit (StInfo "No screenshots found in the folder.")
      | _ => mapM (λ img, emit (StImage ("screenshots/" +:+ img) img)) images;;
             mret ()
      end
  | None =>
      emit (StWarning "Please create a 'screenshots' folder and add your images.")
  end.

Definition about_markdown : string :=
"
    ### Title
    **Predicting Crime Hotspots in Mpumalanga, South Africa Using Data Analysis Techniques**

    ### Dataset Columns
    - station
    - category
    - location_x (longitude)
    - location_y (latitude)
    - year
    - crime_count

    ### Objectives
    - Explore spatial and temporal crime patterns
    - Identify high-risk areas
    - Support crime prevention strategies
    - Present findings visually

    ### Methodology
    1. Data Collection
    2. Data Cleaning
    3. Exploratory Data Analysis (EDA)
    4. Visualization
    5. Interpretation of Results
    6. Dashboard Development

    ### Tools Used
    - Python
    - Pandas & NumPy
    - Matplotlib
    - Streamlit

    ### Author
    Honour's Student in Data Science & AI
    TUMI Magwagwa
    ".

Definition about_research_page : M () :=
  emit (StTitle "📚 About This Research");;
  emit (StMarkdown about_markdown).

(** One run of the script with the page picked in the sidebar. *)
Definition app (env : environment) (selected : page) : M () :=
  data ← try_load_data env;
  emit (StSidebarTitle "📌 Navigation");;
  match selected with
  | Home => home_page
  | DatasetOverview => dataset_overview_page data
  | DataAnalysis => data_analysis_page data
  | Screenshots => screenshots_page env
  | AboutResearch => about_research_page
  end;;
  emit (StMarkdown "---");;
  emit (StMarkdown "© 2026 | Crime Data Analysis Dashboard").

Definition initial : state := State [] [].

(** What every run shows before and after the selected page. *)
Definition chrome_top : list widget := [StSidebarTitle "📌 Navigation"].

Definition footer : list widget :=
  [StMarkdown "---"; StMarkdown "© 2026 | Crime Data Analysis Dashboard"].

(** The screen after a run; [None] if the run raised. *)
Definition render (env : environment) (selected : page) : option (list widget) :=
  '(_, σ) ← app env selected initial; Some (screen σ).

End Dashboard.

Arguments row : clear implicits.
Abbreviation table F := (list (row F)).
Arguments environment : clear implicits.
Arguments state : clear implicits.
Arguments widget : clear implicits.
Arguments object : clear implicits.


(** ** Sample tables

    Coordinates are integers here (fixed-point degrees); any type with the
    same two operations would do. *)

Definition incident (s c : string) (x y yr n : Z) : row Z :=
  Row (Some s) (Some c) (Some x) (Some y) (Some yr) n.

(** The two-row table of the specification's example. *)
Definition two_years : table Z :=
  [incident "A" "Theft" 1 2 2020 5; incident "A" "Theft" 1 2 2021 3].

(** Nine categories, none of them called "Others". *)
Definition nine_categories : table Z :=
  [incident "Nelspruit" "Assault" 30 (-25) 2020 90;
   incident "Nelspruit" "Burglary" 30 (-25) 2020 80;
   incident "Witbank" "Robbery" 29 (-26) 2020 70;
   incident "Witbank" "Theft" 29 (-26) 2021 60;
   incident "Secunda" "Fraud" 29 (-27) 2021 50;
   incident "Secunda" "Arson" 29 (-27) 2021 40;
   incident "Ermelo" "Murder" 30 (-27) 2022 30;
   incident "Ermelo" "Kidnapping" 30 (-27) 2022 20;
   incident "Nelspruit" "Stock theft" 30 (-25) 2022 10].

(** The same, with the largest category called "Others" in the file. *)
Definition others_in_top : table Z :=
  incident "Nelspruit" "Others" 30 (-25) 2020 95 :: nine_categories.

(** One row whose station cell is empty in the file. *)
Definition missing_station : table Z :=
  [Row None (Some "Theft") (Some 30) (Some (-25)) (Some 2020) 5].

(** The store after [others_in_top] has been loaded, and an environment
    without the data file. *)
Definition store_others : state Z := State [ODataFrame others_in_top] [].

Definition no_file : environment Z :=
  Environment (Raised "FileNotFoundError") None.

(** A row without coordinates, as for a station that was never geocoded. *)
Definition no_coordinates : table Z :=
  Row (Some "Ermelo") (Some "Theft") None None (Some 2022) 4 :: nine_categories.

(** The store after a file with a header and no rows has been loaded. *)
Definition store_empty : state Z := State [ODataFrame []] [].

(** Two rows of 2^62 for one station: their sum does not fit in int64. *)
Definition overflowing : table Z :=
  [incident "A" "Theft" 30 (-25) 2020 4611686018427387904;
   incident "A" "Theft" 30 (-25) 2021 4611686018427387904;
   incident "B" "Theft" 29 (-26) 2020 1].

(** The same two rows under a tenth category. *)
Definition overflowing_category : table Z :=
  incident "A" "Smuggling" 30 (-25) 2020 4611686018427387904 ::
  incident "A" "Smuggling" 30 (-25) 2021 4611686018427387904 ::
  nine_categories.

(** An environment whose data file holds that one row without a station. *)
Definition env_missing_station : environment Z :=
  Environment (Returned missing_station) None.

(** Nine categories and a tenth row whose category cell is empty. *)
Definition missing_category : table Z :=
  Row (Some "Ermelo") None (Some 30) (Some (-27)) (Some 2022) 7 :: nine_categories.

(** * Properties *)

(** ** Sums *)

Lemma Zsum_app l1 l2 : Zsum (l1 ++ l2) = Zsum l1 + Zsum l2.
Proof. induction l1 as [|x l1 IH]; simpl; lia. Qed.

Lemma Zsum_perm l1 l2 : l1 ≡ₚ l2 → Zsum l1 = Zsum l2.
Proof. induction 1; simpl; lia. Qed.

Lemma Zsum_take_drop n l : Zsum (take n l) + Zsum (drop n l) = Zsum l.
Proof. rewrite <- Zsum_app. by rewrite take_drop. Qed.

Lemma Zsum_nonneg l : Forall (λ x, 0 ≤ x) l → 0 ≤ Zsum l.
Proof. induction 1; simpl; lia. Qed.

Lemma Zsum_pos_elem l : 0 < Zsum l → ∃ x, x ∈ l ∧ 0 < x.
Proof.
  induction l as [|x l IH]; simpl; [lia|]. intros Hpos.
  destruct (decide (0 < x)) as [Hx|Hx].
  - exists x. split; [left|done].
  - destruct IH as (y & Hy & Hy'); [lia|]. exists y. split; [by right|done].
Qed.

Lemma series_sum_perm {K} (s1 s2 : series K) :
  s1 ≡ₚ s2 → series_sum s1 = series_sum s2.
Proof. intros Hp. apply Zsum_perm. by rewrite Hp. Qed.

Lemma series_sum_app {K} (s1 s2 : series K) :
  series_sum (s1 ++ s2) = series_sum s1 + series_sum s2.
Proof. unfold series_sum. by rewrite fmap_app, Zsum_app. Qed.

Lemma series_sum_take_drop {K} n (s : series K) :
  series_sum (head n s) + series_sum (iloc_from n s) = series_sum s.
Proof.
  unfold series_sum, head, iloc_from.
  rewrite fmap_take, fmap_drop. apply Zsum_take_drop.
Qed.

(** ** Sorting *)

Section SortFacts.
Context {A : Type} (le : A → A → bool).

Lemma insert_sorted_perm x l : insert_sorted le x l ≡ₚ x :: l.
Proof.
  induction l as [|y l IH]; simpl; [done|].
  destruct (le x y); [done|]. rewrite IH. apply Permutation_swap.
Qed.

Lemma isort_perm l : isort le l ≡ₚ l.
Proof.
  induction l as [|x l IH]; simpl; [done|].
  fold (isort le l). by rewrite insert_sorted_perm, IH.
Qed.

Hypothesis le_total : ∀ x y, le x y = false → le y x = true.

Lemma insert_sorted_Sorted x l :
  Sorted (λ a b, le a b = true) l → Sorted (λ a b, le a b = true) (insert_sorted le x l).
Proof.
  induction 1 as [|y l Hs IH Hhd]; simpl.
  { repeat constructor. }
  destruct (le x y) eqn:Hxy.
  - repeat constructor; done.
  - constructor; [done|].
    destruct Hhd as [|z l Hyz]; simpl.
    + constructor. by apply le_total.
    + destruct (le x z); constructor; [by apply le_total|done].
Qed.

Lemma isort_Sorted l : Sorted (λ a b, le a b = true) (isort le l).
Proof.
  induction l as [|x l IH]; simpl; [constructor|].
  by apply insert_sorted_Sorted.
Qed.
End SortFacts.

Lemma sort_values_desc_perm {K} (s : series K) : sort_values_desc s ≡ₚ s.
Proof.
  unfold sort_values_desc. by rewrite reverse_Permutation, isort_perm, reverse_Permutation.
Qed.

Lemma Sorted_impl {A} (R1 R2 : relation A) l :
  (∀ x y, R1 x y → R2 x y) → Sorted R1 l → Sorted R2 l.
Proof.
  intros HR. induction 1 as [|x l Hs IH Hhd]; constructor; [done|].
  destruct Hhd; constructor; auto.
Qed.

Lemma sort_values_desc_sorted {K} (s : series K) :
  Sorted (λ a b : K * Z, b.2 ≤ a.2) (sort_values_desc s).
Proof.
  unfold sort_values_desc.
  apply (Sorted_impl (flip (λ a b : K * Z, (a.2 <=? b.2) = true))).
  { unfold flip. intros x y Hxy. lia. }
  apply Sorted_reverse, isort_Sorted. intros x y Hxy. lia.
Qed.

Lemma Sorted_take {A} (R : relation A) n l : Sorted R l → Sorted R (take n l).
Proof.
  intros Hs. revert n. induction Hs as [|x l Hs IH Hhd]; intros [|n]; simpl;
    try constructor; [apply IH|].
  destruct Hhd; destruct n; simpl; constructor; done.
Qed.

(** ** Group-wise summation *)

Section AccumulateFacts.
Context {K : Type} `{EqDecision K}.
Implicit Types (k : K) (v : Z) (acc s : series K).

Lemma accumulate_keys k v acc k' :
  k' ∈ (accumulate k v acc).*1 ↔ k' = k ∨ k' ∈ acc.*1.
Proof.
  induction acc as [|[k0 v0] acc IH]; simpl.
  - set_solver.
  - destruct (decide (k = k0)) as [->|Hne]; simpl; rewrite ?elem_of_cons.
    + naive_solver.
    + rewrite IH. naive_solver.
Qed.

Lemma accumulate_NoDup k v acc : NoDup acc.*1 → NoDup (accumulate k v acc).*1.
Proof.
  induction acc as [|[k0 v0] acc IH]; simpl.
  - intros _. apply NoDup_singleton.
  - rewrite NoDup_cons. intros [Hk0 Hnd].
    destruct (decide (k = k0)) as [->|Hne]; simpl; rewrite NoDup_cons.
    + done.
    + split; [|by apply IH]. rewrite accumulate_keys. naive_solver.
Qed.

Lemma accumulate_bucket k v acc k' :
  bucket k' (accumulate k v acc) = bucket k' acc + (if decide (k' = k) then v else 0).
Proof.
  induction acc as [|[k0 v0] acc IH]; simpl.
  - destruct (decide (k' = k)); lia.
  - destruct (decide (k = k0)) as [->|Hne]; simpl.
    + destruct (decide (k' = k0)); lia.
    + destruct (decide (k' = k0)) as [->|]; [|done].
      rewrite decide_False by done. lia.
Qed.

Lemma accumulate_sum k v acc :
  series_sum (accumulate k v acc) = series_sum acc + v.
Proof.
  unfold series_sum. induction acc as [|[k0 v0] acc IH]; [simpl; lia|].
  csimpl. destruct (decide (k = k0)); csimpl in *; lia.
Qed.

Lemma bucket_elem_of s k v :
  NoDup s.*1 → (k, v) ∈ s ↔ k ∈ s.*1 ∧ bucket k s = v.
Proof.
  induction s as [|[k0 v0] s IH]; simpl.
  - set_solver.
  - rewrite NoDup_cons. intros [Hk0 Hnd].
    rewrite !elem_of_cons, IH by done.
    destruct (decide (k = k0)) as [->|Hne]; naive_solver.
Qed.

Lemma get_loc_None k (idx : list K) : get_loc k idx = None ↔ k ∉ idx.
Proof.
  induction idx as [|k0 idx IH]; simpl.
  - split; [intros _; apply not_elem_of_nil|done].
  - rewrite not_elem_of_cons.
    destruct (decide (k = k0)) as [->|Hne]; [naive_solver|].
    rewrite fmap_None, IH. naive_solver.
Qed.

Lemma get_loc_Some k (idx : list K) i :
  get_loc k idx = Some i → idx !! i = Some k.
Proof.
  revert i. induction idx as [|k0 idx IH]; simpl; intros i; [done|].
  destruct (decide (k = k0)) as [->|Hne].
  - by intros [= <-].
  - rewrite fmap_Some. intros (j & Hj & ->). simpl. by apply IH.
Qed.
End AccumulateFacts.

Section GroupFacts.
Context {F : Type} `{EqDecision F, KeyOrd F}.
Context {K : Type} `{EqDecision K}.
Implicit Types (t : table F) (key : row F → option K).

Lemma sum_where_cons key k r t :
  sum_where key k (r :: t) =
  (if decide (key r = Some k) then crime_count r else 0) + sum_where key k t.
Proof.
  unfold sum_where. rewrite filter_cons.
  destruct (decide (key r = Some k)); csimpl; lia.
Qed.

Lemma foldl_group_keys key t acc k :
  k ∈ (foldl (group_step key) acc t).*1 ↔
  k ∈ acc.*1 ∨ ∃ r, r ∈ t ∧ key r = Some k.
Proof.
  revert acc. induction t as [|r t IH]; intros acc; simpl.
  - set_solver.
  - rewrite IH. unfold group_step. setoid_rewrite elem_of_cons.
    destruct (key r) as [k0|] eqn:Hr.
    + rewrite accumulate_keys. naive_solver.
    + naive_solver.
Qed.

Lemma foldl_group_NoDup key t acc :
  NoDup acc.*1 → NoDup (foldl (group_step key) acc t).*1.
Proof.
  revert acc. induction t as [|r t IH]; intros acc Hnd; simpl; [done|].
  apply IH. unfold group_step. destruct (key r); [by apply accumulate_NoDup|done].
Qed.

Lemma foldl_group_bucket key t acc k :
  bucket k (foldl (group_step key) acc t) = bucket k acc + sum_where key k t.
Proof.
  revert acc. induction t as [|r t IH]; intros acc; simpl.
  - unfold sum_where. simpl. lia.
  - rewrite IH, sum_where_cons. unfold group_step.
    destruct (key r) as [k0|] eqn:Hr.
    + rewrite accumulate_bucket.
      destruct (decide (k = k0)) as [->|Hne].
      * rewrite decide_True by done. lia.
      * rewrite decide_False by congruence. lia.
    + rewrite decide_False by done. lia.
Qed.
End GroupFacts.

Section GroupbyFacts.
Context {F : Type} `{EqDecision F, KeyOrd F}.
Context {K : Type} `{EqDecision K}.
Implicit Types (t : table F) (key : row F → option K).

Lemma group_sums_grouped key t : grouped_by key t (group_sums key t).
Proof.
  unfold group_sums. split.
  - apply foldl_group_NoDup. constructor.
  - intros k v. rewrite bucket_elem_of by (apply foldl_group_NoDup; constructor).
    rewrite foldl_group_keys, foldl_group_bucket. simpl.
    rewrite elem_of_nil. naive_solver lia.
Qed.

Lemma grouped_by_perm key t (g g' : series K) :
  g ≡ₚ g' → grouped_by key t g → grouped_by key t g'.
Proof.
  intros Hp [Hnd Hin]. split.
  - by rewrite <- Hp.
  - intros k v. rewrite <- Hin. by rewrite Hp.
Qed.

Lemma groupby_sum_perm `{KeyOrd K} key t : groupby_sum key t ≡ₚ group_sums key t.
Proof. apply isort_perm. Qed.

Lemma groupby_sum_grouped `{KeyOrd K} key t : grouped_by key t (groupby_sum key t).
Proof.
  eapply grouped_by_perm; [symmetry; apply groupby_sum_perm|].
  apply group_sums_grouped.
Qed.

(** Rows with a missing key are in no group: a grouping sums exactly the
    rows that have the key. *)
Lemma foldl_group_sum key t (acc : series K) :
  series_sum (foldl (group_step key) acc t) =
  series_sum acc + Zsum (crime_count <$> filter (λ r, is_Some (key r)) t).
Proof.
  revert acc. induction t as [|r t IH]; intros acc; simpl; [lia|].
  rewrite IH, filter_cons. unfold group_step.
  destruct (key r) as [k|] eqn:Hr.
  - rewrite decide_True by eauto. rewrite accumulate_sum. csimpl. lia.
  - rewrite decide_False by (by intros [??]). done.
Qed.

Lemma groupby_sum_total `{KeyOrd K} key t :
  series_sum (groupby_sum key t) =
  Zsum (crime_count <$> filter (λ r, is_Some (key r)) t).
Proof.
  rewrite (series_sum_perm _ _ (groupby_sum_perm key t)).
  unfold group_sums. rewrite foldl_group_sum. unfold series_sum. simpl. lia.
Qed.

Lemma groupby_sum_total_complete `{KeyOrd K} key t :
  Forall (λ r, is_Some (key r)) t →
  series_sum (groupby_sum key t) = total_crime_count t.
Proof.
  intros Hall. rewrite groupby_sum_total. unfold total_crime_count.
  f_equal. f_equal. induction Hall as [|r t Hr _ IH]; [done|].
  rewrite filter_cons, decide_True by done. by rewrite IH.
Qed.

Lemma sorted_groupby_spec `{KeyOrd K} key t :
  descending_sort_of (sort_values_desc (groupby_sum key t)) (groupby_sum key t).
Proof. split; [apply sort_values_desc_perm|apply sort_values_desc_sorted]. Qed.
End GroupbyFacts.

Lemma Sorted_le_NoDup_lt (l : list Z) : Sorted Z.le l → NoDup l → StronglySorted Z.lt l.
Proof.
  intros Hs%Sorted_StronglySorted; [|intros ???; lia].
  induction Hs as [|x l Hs IH Hall]; intros Hnd; [constructor|].
  apply NoDup_cons in Hnd as [Hx Hnd]. constructor; [by apply IH|].
  rewrite Forall_forall in Hall |- *. intros y Hy.
  specialize (Hall y Hy). assert (x ≠ y) by (by intros ->). lia.
Qed.

Lemma Zsum_insert (l : list Z) i old v :
  l !! i = Some old → Zsum (<[i := v]> l) = Zsum l - old + v.
Proof.
  revert i. induction l as [|x l IH]; intros [|i]; simpl; try done.
  - intros [= ->]. lia.
  - intros Hi. rewrite (IH _ Hi). lia.
Qed.

Lemma Zsum_filter_le {A} (f : A → Z) (P : A → Prop) `{∀ x, Decision (P x)} (l : list A) :
  Forall (λ x, 0 ≤ f x) l → Zsum (f <$> filter P l) ≤ Zsum (f <$> l).
Proof.
  induction 1 as [|x l Hx _ IH]; [done|].
  rewrite filter_cons. destruct (decide (P x)); csimpl; lia.
Qed.

Section CategoryFacts.
Context {F : Type} `{EqDecision F, KeyOrd F}.
Implicit Types (t : table F).

Lemma sum_where_nonneg {K} `{EqDecision K} (key : row F → option K) k t :
  nonneg_counts t → 0 ≤ sum_where key k t.
Proof.
  intros Hnn. apply Zsum_nonneg, Forall_fmap, Forall_forall.
  intros r [_ Hr]%list_elem_of_filter. unfold nonneg_counts in Hnn.
  rewrite Forall_forall in Hnn. by apply Hnn.
Qed.
End CategoryFacts.

(** ** Runs of the script *)

Section RunFacts.
Context {F : Type} `{EqDecision F, KeyOrd F}.
Implicit Types (h : list (object F)) (scr : list (widget F)) (t : table F).

Lemma bind_run {A B} (m : M A) (k : A → M B) (σ σ' : state F) a :
  m σ = Some (a, σ') → (m ≫= k) σ = k a σ'.
Proof. unfold mbind, M_bind. by intros ->. Qed.

Lemma emit_run w h scr : emit w (State h scr) = Some ((), State h (scr ++ [w])).
Proof. done. Qed.

Lemma denotes_new {K} base h (it : series K) :
  (base ≤ length h)%nat →
  denotes base (h ++ [OValues it.*2]) (SeriesRef it.*1 (length h) 0) it.
Proof.
  intros Hb. split; [done|split; [done|]]. exists it.*2. simpl. split.
  - by apply list_lookup_middle.
  - rewrite drop_0. apply take_ge. by rewrite length_fmap.
Qed.

Lemma denotes_app {K} base h ext (s : series_ref K) it :
  denotes base h s it → denotes base (h ++ ext) s it.
Proof.
  intros (Hidx & Hb & vs & Hvs & Hw). split; [done|split; [done|]].
  exists vs. split; [by apply lookup_app_l_Some|done].
Qed.

Lemma denotes_head {K} base h (s : series_ref K) it n :
  denotes base h s it →
  denotes base h (SeriesRef (take n (sr_index s)) (sr_values s) (sr_offset s))
          (head n it).
Proof.
  intros (Hidx & Hb & vs & Hvs & Hw). unfold head.
  split; [simpl; by rewrite Hidx, fmap_take|split; [done|]].
  exists vs. split; [done|]. simpl.
  by rewrite fmap_take, <- Hw, take_take, length_take.
Qed.

Lemma denotes_iloc_from {K} base h (s : series_ref K) it n :
  denotes base h s it →
  denotes base h (SeriesRef (drop n (sr_index s)) (sr_values s)
                    (sr_offset s + n `min` length (sr_index s)))
          (iloc_from n it).
Proof.
  intros (Hidx & Hb & vs & Hvs & Hw). unfold iloc_from.
  split; [simpl; by rewrite Hidx, fmap_drop|split; [done|]].
  exists vs. split; [done|]. simpl.
  rewrite fmap_drop, <- Hw, Hidx, length_fmap, length_drop.
  destruct (decide (n ≤ length it)%nat) as [Hn|Hn].
  - rewrite Nat.min_l by done. rewrite <- drop_drop, take_drop_commute.
    by replace (n + (length it - n))%nat with (length it) by lia.
  - rewrite Nat.min_r by lia.
    replace (length it - n)%nat with 0%nat by lia.
    by rewrite take_0, drop_ge by (rewrite length_take; lia).
Qed.

Lemma items_run {K} base h scr (s : series_ref K) it :
  denotes base h s it → items s (State h scr) = Some (it, State h scr).
Proof.
  intros (Hidx & Hb & vs & Hvs & Hw). unfold items.
  erewrite bind_run; [|unfold read_values; simpl; by rewrite Hvs].
  rewrite Hidx, length_fmap, Hw, decide_True by (by rewrite !length_fmap).
  by rewrite zip_fst_snd.
Qed.

Lemma new_series_run {K} h scr (it : series K) :
  new_series it (State h scr) =
  Some (SeriesRef it.*1 (length h) 0, State (h ++ [OValues it.*2]) scr).
Proof. done. Qed.

Lemma groupby_sum_run {K} `{EqDecision K, KeyOrd K} (key : row F → option K)
    h scr data t :
  h !! data = Some (ODataFrame t) →
  groupby_sum_m key data (State h scr) =
  Some (SeriesRef (groupby_sum64 key t).*1 (length h) 0,
        State (h ++ [OValues (groupby_sum64 key t).*2]) scr).
Proof.
  intros Hd. unfold groupby_sum_m.
  erewrite bind_run; [|unfold read_frame; simpl; by rewrite Hd]. done.
Qed.

Lemma sort_values_run {K} base h scr (s : series_ref K) it :
  denotes base h s it →
  sort_values_m s (State h scr) =
  Some (SeriesRef (sort_values_desc it).*1 (length h) 0,
        State (h ++ [OValues (sort_values_desc it).*2]) scr).
Proof.
  intros Hs. unfold sort_values_m. by erewrite bind_run; [|by eapply items_run].
Qed.

Lemma reset_index_run {K} base h scr (s : series_ref K) it :
  denotes base h s it →
  reset_index_m s (State h scr) =
  Some (SeriesRef it.*1 (length h) 0, State (h ++ [OValues it.*2]) scr).
Proof.
  intros Hs. unfold reset_index_m. by erewrite bind_run; [|by eapply items_run].
Qed.

Lemma rename_run {K} base h scr (s : series_ref K) it :
  denotes base h s it →
  rename_m s (State h scr) =
  Some (SeriesRef it.*1 (length h) 0, State (h ++ [OValues it.*2]) scr).
Proof.
  intros Hs. unfold rename_m. by erewrite bind_run; [|by eapply items_run].
Qed.

Lemma sum_run {K} base h scr (s : series_ref K) it :
  denotes base h s it → sum_m s (State h scr) = Some (sum64 it.*2, State h scr).
Proof.
  intros Hs. unfold sum_m. by erewrite bind_run; [|by eapply items_run].
Qed.

(** Assignment at a label the index has: the buffer cell is overwritten
    in place, for this Series object and for every other one over the
    same buffer. *)
Lemma setitem_run_existing {K} `{EqDecision K} base h scr (s : series_ref K)
    it k v i :
  denotes base h s it → get_loc k it.*1 = Some i →
  ∃ h', setitem_m k v s (State h scr) = Some (s, State h' scr) ∧
        denotes base h' s (<[i := (k, v)]> it) ∧
        ∀ l, l ≠ sr_values s → h' !! l = h !! l.
Proof.
  intros (Hidx & Hb & vs & Hvs & Hw) Hloc.
  pose proof (get_loc_Some _ _ _ Hloc) as Hi.
  assert (i < length it)%nat as Hlt.
  { apply lookup_lt_Some in Hi. by rewrite length_fmap in Hi. }
  assert (sr_offset s + i < length vs)%nat as Hin.
  { apply (f_equal length) in Hw.
    rewrite length_take, length_drop, length_fmap in Hw. lia. }
  exists (<[sr_values s := OValues (<[(sr_offset s + i)%nat := v]> vs)]> h).
  split; [|split].
  - unfold setitem_m. rewrite Hidx, Hloc.
    erewrite bind_run; [done|].
    unfold write_value. simpl. by rewrite Hvs, decide_True.
  - split; [|split; [done|]].
    + rewrite list_fmap_insert. simpl. rewrite Hidx.
      symmetry. by apply list_insert_id.
    + exists (<[(sr_offset s + i)%nat := v]> vs). split.
      * apply list_lookup_insert_eq. by eapply lookup_lt_Some.
      * rewrite length_insert, list_fmap_insert. simpl.
        rewrite drop_insert_ge by lia. rewrite take_insert_lt by lia.
        rewrite Hw. f_equal. lia.
  - intros l Hl. by apply list_lookup_insert_ne.
Qed.

(** Assignment at a new label: the Series object becomes a longer series
    over a buffer of its own. *)
Lemma setitem_run_new {K} `{EqDecision K} base h scr (s : series_ref K)
    it k v :
  denotes base h s it → get_loc k it.*1 = None →
  setitem_m k v s (State h scr) =
  Some (SeriesRef (it ++ [(k, v)]).*1 (length h) 0,
        State (h ++ [OValues (it ++ [(k, v)]).*2]) scr).
Proof.
  intros Hs Hloc. pose proof Hs as (Hidx & _). unfold setitem_m.
  rewrite Hidx, Hloc. by erewrite bind_run; [|by eapply items_run].
Qed.
End RunFacts.

Section BlockFacts.
Context {F : Type} `{EqDecision F, KeyOrd F}.
Implicit Types (h : list (object F)) (scr : list (widget F)) (t : table F).

Lemma computes_returns {K} (m : M (series_ref K)) h scr (it : series K) :
  computes m h it → returns_series m (State h scr) it.
Proof.
  intros Hc. destruct (Hc scr) as (s & h' & Hrun & Hden & _).
  exists s, (State h' scr). split; [done|]. by eapply items_run.
Qed.

Lemma station_counts_m_computes h data t :
  h !! data = Some (ODataFrame t) →
  computes (station_counts_m data) h (station_counts64 t).
Proof.
  intros Hd scr. unfold station_counts_m.
  erewrite bind_run by (by apply groupby_sum_run).
  erewrite bind_run by (by eapply (sort_values_run (length h)), denotes_new).
  eexists _, _. split; [reflexivity|]. split.
  - apply denotes_head, denotes_new. rewrite length_app. lia.
  - intros l o Hl. by do 2 apply lookup_app_l_Some.
Qed.

Lemma category_counts_m_computes h data t :
  h !! data = Some (ODataFrame t) →
  computes (category_counts_m data) h (category_counts64 t).
Proof.
  intros Hd scr. unfold category_counts_m.
  erewrite bind_run by (by apply groupby_sum_run).
  erewrite (sort_values_run (length h)) by (by apply denotes_new).
  eexists _, _. split; [reflexivity|]. split.
  - apply denotes_new. rewrite length_app. lia.
  - intros l o Hl. by do 2 apply lookup_app_l_Some.
Qed.

(** The top categories are taken as a view of [category_counts]; the
    assignment of "Others" either writes into the buffer they share or moves
    the view to a buffer of its own. Objects below [base] are not touched. *)
Lemma top_categories_m_spec base h scr (cc : series_ref string) t :
  denotes base h cc (category_counts64 t) →
  ∃ s h', top_categories_m cc (State h scr) = Some (s, State h' scr) ∧
          denotes base h' s (top_categories64 t) ∧
          ∀ l o, (l < base)%nat → h !! l = Some o → h' !! l = Some o.
Proof.
  intros Hcc. unfold top_categories_m.
  erewrite bind_run by reflexivity.
  erewrite bind_run by reflexivity.
  erewrite bind_run by (eapply sum_run, denotes_iloc_from, Hcc).
  fold (others64 t).
  pose proof (denotes_head _ _ _ _ 8 Hcc) as Htop.
  unfold top_categories64. destruct (0 <? others64 t).
  - unfold setitem.
    destruct (get_loc "Others" (head 8 (category_counts64 t)).*1) as [i|] eqn:Hloc.
    + destruct (setitem_run_existing _ _ scr _ _ _ (others64 t) _ Htop Hloc)
        as (h' & Hrun & Hden & Hother).
      eexists _, h'. split; [exact Hrun|]. split; [exact Hden|].
      intros l o Hl Hlo. rewrite Hother; [done|].
      destruct Hcc as (_ & Hb & _). simpl. lia.
    + erewrite setitem_run_new by done.
      eexists _, _. split; [reflexivity|]. split.
      * apply denotes_new. destruct Hcc as (_ & Hb & vs & Hvs & _).
        apply lookup_lt_Some in Hvs. lia.
      * intros l o _ Hl. by apply lookup_app_l_Some.
  - eexists _, _. split; [reflexivity|]. split; [exact Htop|done].
Qed.

Lemma top_categories_m_computes h data t :
  h !! data = Some (ODataFrame t) →
  computes (category_counts_m data ≫= top_categories_m) h (top_categories64 t).
Proof.
  intros Hd scr.
  destruct (category_counts_m_computes h data t Hd scr)
    as (cc & h1 & Hrun1 & Hcc & Hf1).
  destruct (top_categories_m_spec _ _ scr _ _ Hcc) as (s & h2 & Hrun2 & Hs & Hf2).
  exists s, h2. split; [by erewrite bind_run by exact Hrun1|]. split; [done|].
  intros l o Hl. apply Hf2; [by eapply lookup_lt_Some|by apply Hf1].
Qed.

Lemma yearly_trend_m_computes h data t :
  h !! data = Some (ODataFrame t) →
  computes (yearly_trend_m data) h (yearly_trend64 t).
Proof.
  intros Hd scr. unfold yearly_trend_m.
  erewrite groupby_sum_run by done.
  eexists _, _. split; [reflexivity|]. split; [by apply denotes_new|].
  intros l o Hl. by apply lookup_app_l_Some.
Qed.

Lemma station_locations_m_computes h data t :
  h !! data = Some (ODataFrame t) →
  computes (station_locations_m data) h (station_locations64 t).
Proof.
  intros Hd scr. unfold station_locations_m.
  erewrite bind_run by (by apply groupby_sum_run).
  erewrite (reset_index_run (length h)) by (by apply denotes_new).
  eexists _, _. split; [reflexivity|]. split.
  - apply denotes_new. rewrite length_app. lia.
  - intros l o Hl. by do 2 apply lookup_app_l_Some.
Qed.

Lemma hotspot_data_m_computes h data t :
  h !! data = Some (ODataFrame t) →
  computes (hotspot_data_m data) h (hotspot_data64 t).
Proof.
  intros Hd scr. unfold hotspot_data_m.
  erewrite bind_run by (by apply groupby_sum_run).
  erewrite bind_run by (by eapply (reset_index_run (length h)), denotes_new).
  erewrite bind_run.
  2:{ eapply (sort_values_run (length h)), denotes_new. rewrite length_app. lia. }
  eexists _, _. split; [reflexivity|]. split.
  - apply denotes_head, denotes_new. rewrite !length_app. lia.
  - intros l o Hl. by do 3 apply lookup_app_l_Some.
Qed.

(** *** What a run leaves of the store *)

Lemma bind_Some {A B} (m : M A) (k : A → M B) (σ σ'' : state F) b :
  (m ≫= k) σ = Some (b, σ'') →
  ∃ a σ', m σ = Some (a, σ') ∧ k a σ' = Some (b, σ'').
Proof. unfold mbind, M_bind. destruct (m σ) as [[a σ']|]; [eauto|done]. Qed.

Lemma crime_by_station_frame : block_frame (F:=F) crime_by_station.
Proof.
  intros h scr data t σ' Hd Hrun. unfold crime_by_station in Hrun.
  erewrite bind_run in Hrun by apply emit_run.
  destruct (station_counts_m_computes h data t Hd
              (scr ++ [StSubheader "🏢 Crime by Police Station"]))
    as (s & h' & Hrun1 & Hs & Hframe).
  erewrite bind_run in Hrun by exact Hrun1.
  erewrite bind_run in Hrun by (eapply items_run, Hs).
  unfold bar_chart in Hrun. destruct (station_counts64 t); [done|].
  rewrite emit_run in Hrun. by injection Hrun as <-.
Qed.

Lemma crime_by_category_frame : block_frame (F:=F) crime_by_category.
Proof.
  intros h scr data t σ' Hd Hrun. unfold crime_by_category in Hrun.
  erewrite bind_run in Hrun by apply emit_run.
  destruct (top_categories_m_computes h data t Hd
              (scr ++ [StSubheader "📂 Crime by Category (Clear View)"]))
    as (s & h' & Hrun1 & Hs & Hframe).
  apply bind_Some in Hrun as (cc & σ1 & Hcc & Hrun).
  erewrite bind_run in Hrun1 by exact Hcc.
  erewrite bind_run in Hrun by exact Hrun1.
  erewrite bind_run in Hrun by (eapply items_run, Hs).
  unfold pie_chart in Hrun. destruct (bool_decide _); [|done].
  rewrite emit_run in Hrun. by injection Hrun as <-.
Qed.

Lemma crime_trend_frame : block_frame (F:=F) crime_trend.
Proof.
  intros h scr data t σ' Hd Hrun. unfold crime_trend in Hrun.
  erewrite bind_run in Hrun by apply emit_run.
  destruct (yearly_trend_m_computes h data t Hd
              (scr ++ [StSubheader "📅 Crime Trend Over Years"]))
    as (s & h' & Hrun1 & Hs & Hframe).
  erewrite bind_run in Hrun by exact Hrun1.
  erewrite bind_run in Hrun by (eapply items_run, Hs).
  rewrite emit_run in Hrun. by injection Hrun as <-.
Qed.

Lemma stations_map_frame : block_frame (F:=F) stations_map.
Proof.
  intros h scr data t σ' Hd Hrun. unfold stations_map in Hrun.
  erewrite bind_run in Hrun by apply emit_run.
  destruct (station_locations_m_computes h data t Hd
              (scr ++ [StSubheader "📍 All Police Stations Map"]))
    as (s & h' & Hrun1 & Hs & Hframe).
  erewrite bind_run in Hrun by exact Hrun1.
  erewrite bind_run in Hrun by (eapply items_run, Hs).
  erewrite bind_run in Hrun by apply emit_run.
  erewrite bind_run in Hrun by apply emit_run.
  erewrite bind_run in Hrun by (eapply rename_run, Hs).
  erewrite bind_run in Hrun by (eapply (items_run 0), denotes_new; lia).
  rewrite emit_run in Hrun. injection Hrun as <-. simpl.
  intros l o Hl. by apply lookup_app_l_Some, Hframe.
Qed.

Lemma hotspots_frame : block_frame (F:=F) hotspots.
Proof.
  intros h scr data t σ' Hd Hrun. unfold hotspots in Hrun.
  erewrite bind_run in Hrun by apply emit_run.
  destruct (hotspot_data_m_computes h data t Hd
              (scr ++ [StSubheader "🔥 Top Crime Hotspots"]))
    as (s & h' & Hrun1 & Hs & Hframe).
  erewrite bind_run in Hrun by exact Hrun1.
  erewrite bind_run in Hrun by (eapply items_run, Hs).
  erewrite bind_run in Hrun by apply emit_run.
  erewrite bind_run in Hrun by apply emit_run.
  erewrite bind_run in Hrun by (eapply rename_run, Hs).
  erewrite bind_run in Hrun by (eapply (items_run 0), denotes_new; lia).
  rewrite emit_run in Hrun. injection Hrun as <-. simpl.
  intros l o Hl. by apply lookup_app_l_Some, Hframe.
Qed.

Lemma block_frame_seq (m1 m2 : loc → M ()) :
  block_frame (F:=F) m1 → block_frame m2 →
  block_frame (λ data, m1 data;; m2 data).
Proof.
  intros H1 H2 h scr data t σ' Hd Hrun.
  apply bind_Some in Hrun as ([] & [h1 scr1] & Hrun1 & Hrun2).
  pose proof (H1 _ _ _ _ _ Hd Hrun1) as Hf1. simpl in Hf1.
  pose proof (H2 _ _ _ _ _ (Hf1 _ _ Hd) Hrun2) as Hf2.
  intros l o Hl. by apply Hf2, Hf1.
Qed.

Lemma data_analysis_frame : block_frame (F:=F) data_analysis.
Proof.
  unfold data_analysis.
  repeat first [ apply crime_by_station_frame | apply crime_by_category_frame
               | apply crime_trend_frame | apply stations_map_frame
               | apply hotspots_frame | apply block_frame_seq ].
Qed.

(** The five assignments end normally, whatever the table, and leave the
    objects of the store as they were. *)
Lemma aggregations_run h scr data t :
  h !! data = Some (ODataFrame t) →
  ∃ h', aggregations data (State h scr) = Some ((), State h' scr) ∧
        ∀ l o, h !! l = Some o → h' !! l = Some o.
Proof.
  intros Hd. unfold aggregations.
  destruct (station_counts_m_computes h data t Hd scr)
    as (s1 & h1 & Hrun1 & _ & Hf1).
  destruct (top_categories_m_computes h1 data t (Hf1 _ _ Hd) scr)
    as (s2 & h2 & Hrun2 & _ & Hf2).
  destruct (yearly_trend_m_computes h2 data t (Hf2 _ _ (Hf1 _ _ Hd)) scr)
    as (s3 & h3 & Hrun3 & _ & Hf3).
  destruct (station_locations_m_computes h3 data t
              (Hf3 _ _ (Hf2 _ _ (Hf1 _ _ Hd))) scr)
    as (s4 & h4 & Hrun4 & _ & Hf4).
  destruct (hotspot_data_m_computes h4 data t
              (Hf4 _ _ (Hf3 _ _ (Hf2 _ _ (Hf1 _ _ Hd)))) scr)
    as (s5 & h5 & Hrun5 & _ & Hf5).
  exists h5. split; [|by auto 10].
  erewrite bind_run by exact Hrun1. erewrite bind_run by exact Hrun2.
  erewrite bind_run by exact Hrun3. erewrite bind_run by exact Hrun4.
  by erewrite bind_run by exact Hrun5.
Qed.

End BlockFacts.

(** ** The keys of the two multi-column groupings *)

Section KeyFacts.
Context {F : Type} `{EqDecision F, KeyOrd F}.
Implicit Types (t : table F) (r : row F).

Lemma station_location_Some r s x y :
  station_location r = Some (s, x, y) ↔
  station r = Some s ∧ location_x r = Some x ∧ location_y r = Some y.
Proof.
  unfold station_location.
  destruct (station r), (location_x r), (location_y r); simpl; naive_solver.
Qed.

Lemma location_Some r x y :
  location r = Some (x, y) ↔ location_x r = Some x ∧ location_y r = Some y.
Proof.
  unfold location. destruct (location_x r), (location_y r); simpl; naive_solver.
Qed.

(** A group of the station-locations view, and of the hotspots view: the
    rows it sums, told by their cells. *)
Lemma sum_where_station_location s x y t :
  sum_where station_location (s, x, y) t =
  Zsum (crime_count <$>
        filter (λ r, station r = Some s ∧ location_x r = Some x ∧
                     location_y r = Some y) t).
Proof.
  unfold sum_where. f_equal. f_equal. apply list_filter_iff.
  intros r. apply station_location_Some.
Qed.

Lemma sum_where_location x y t :
  sum_where location (x, y) t =
  Zsum (crime_count <$>
        filter (λ r, location_x r = Some x ∧ location_y r = Some y) t).
Proof.
  unfold sum_where. f_equal. f_equal. apply list_filter_iff.
  intros r. apply location_Some.
Qed.
End KeyFacts.

(** ** The column's int64 arithmetic *)

Lemma wrap64_small z :
  -9223372036854775808 ≤ z < 9223372036854775808 → wrap64 z = z.
Proof. intros Hz. unfold wrap64. rewrite Z.mod_small; lia. Qed.

Section Int64Facts.
Context {F : Type} `{EqDecision F, KeyOrd F}.
Context {K : Type} `{EqDecision K}.
Implicit Types (t : table F) (key : row F → option K) (acc : series K).

Lemma abs_total_nonneg t : 0 ≤ abs_total t.
Proof.
  unfold abs_total. apply Zsum_nonneg, Forall_fmap, Forall_forall.
  intros r _. simpl. lia.
Qed.

Lemma accumulate64_exact k v acc B :
  Forall (λ p, Z.abs p.2 ≤ B) acc → 0 ≤ B →
  B + Z.abs v < 9223372036854775808 →
  accumulate64 k v acc = accumulate k v acc ∧
  Forall (λ p, Z.abs p.2 ≤ B + Z.abs v) (accumulate k v acc).
Proof.
  intros Hacc HB Hv. induction Hacc as [|[k0 s] acc Hs Hacc IH]; simpl.
  - split; [by rewrite wrap64_small by lia|]. repeat constructor. simpl. lia.
  - simpl in Hs. destruct IH as [IHeq IHb].
    destruct (decide (k = k0)) as [->|Hne].
    + split; [by rewrite wrap64_small by lia|]. constructor; [simpl; lia|].
      eapply Forall_impl; [exact Hacc|]. simpl. intros p Hp. lia.
    + split; [by rewrite IHeq|]. constructor; [simpl; lia|done].
Qed.

Lemma foldl_group64_exact key t acc B :
  Forall (λ p, Z.abs p.2 ≤ B) acc → 0 ≤ B →
  B + abs_total t < 9223372036854775808 →
  foldl (group_step64 key) acc t = foldl (group_step key) acc t.
Proof.
  revert acc B. induction t as [|r t IH]; intros acc B Hacc HB Hb; [done|].
  simpl. unfold abs_total in Hb. csimpl in Hb. fold (abs_total t) in Hb.
  pose proof (abs_total_nonneg t) as Ht.
  unfold group_step64 at 2, group_step at 2. destruct (key r) as [k|].
  - destruct (accumulate64_exact k (crime_count r) acc B Hacc HB) as [-> Hb'];
      [lia|].
    apply (IH _ (B + Z.abs (crime_count r))); [done|lia|lia].
  - apply (IH _ B); [done|done|lia].
Qed.

(** On a table within the range, the wrap-around summation of the column
    and the exact one give the same totals. *)
Lemma groupby_sum64_exact `{KeyOrd K} key t :
  within_int64 t → groupby_sum64 key t = groupby_sum key t.
Proof.
  intros Ht. unfold groupby_sum64, groupby_sum, group_sums64, group_sums.
  f_equal. apply (foldl_group64_exact key t [] 0); [constructor|done|].
  unfold within_int64 in Ht. lia.
Qed.

Lemma Zsum_abs_nonneg (vs : list Z) : 0 ≤ Zsum (Z.abs <$> vs).
Proof. apply Zsum_nonneg, Forall_fmap, Forall_forall. intros v _. simpl. lia. Qed.

Lemma Zsum_abs_drop n (vs : list Z) :
  Zsum (Z.abs <$> drop n vs) ≤ Zsum (Z.abs <$> vs).
Proof.
  rewrite <- (take_drop n vs) at 2. rewrite fmap_app, Zsum_app.
  pose proof (Zsum_abs_nonneg (take n vs)). lia.
Qed.

Lemma accumulate_abs k v acc :
  Zsum (Z.abs <$> (accumulate k v acc).*2) ≤ Zsum (Z.abs <$> acc.*2) + Z.abs v.
Proof.
  induction acc as [|[k0 s] acc IH]; csimpl; [lia|].
  destruct (decide (k = k0)); csimpl; lia.
Qed.

Lemma foldl_group_abs key t acc :
  Zsum (Z.abs <$> (foldl (group_step key) acc t).*2) ≤
  Zsum (Z.abs <$> acc.*2) + abs_total t.
Proof.
  revert acc. induction t as [|r t IH]; intros acc.
  - unfold abs_total. simpl. lia.
  - simpl. etrans; [apply IH|]. unfold abs_total. csimpl.
    unfold group_step. destruct (key r) as [k|].
    + pose proof (accumulate_abs k (crime_count r) acc). lia.
    + lia.
Qed.

(** The totals of a grouping are sums over disjoint sets of rows: their
    absolute values sum to no more than those of the rows. *)
Lemma groupby_sum_abs `{KeyOrd K} key t :
  Zsum (Z.abs <$> (groupby_sum key t).*2) ≤ abs_total t.
Proof.
  rewrite (Zsum_perm _ (Z.abs <$> (group_sums key t).*2)).
  - apply (foldl_group_abs key t []).
  - by rewrite groupby_sum_perm.
Qed.

Lemma sum64_foldl_exact (vs : list Z) a :
  Z.abs a + Zsum (Z.abs <$> vs) < 9223372036854775808 →
  foldl (λ s v, wrap64 (s + v)) a vs = a + Zsum vs.
Proof.
  revert a. induction vs as [|v vs IH]; intros a Hb; csimpl in *; [lia|].
  pose proof (Zsum_abs_nonneg vs).
  rewrite wrap64_small by lia. rewrite IH by lia. lia.
Qed.

Lemma sum64_exact (vs : list Z) :
  Zsum (Z.abs <$> vs) < 9223372036854775808 → sum64 vs = Zsum vs.
Proof. intros Hb. unfold sum64. rewrite sum64_foldl_exact; simpl; lia. Qed.
End Int64Facts.

Section Int64Views.
Context {F : Type} `{EqDecision F, KeyOrd F}.
Implicit Types (t : table F).

Lemma station_counts64_exact t : within_int64 t → station_counts64 t = station_counts t.
Proof.
  intros Ht. unfold station_counts64, station_counts, station_totals.
  by rewrite groupby_sum64_exact.
Qed.

Lemma category_counts64_exact t :
  within_int64 t → category_counts64 t = category_counts t.
Proof.
  intros Ht. unfold category_counts64, category_counts.
  by rewrite groupby_sum64_exact.
Qed.

Lemma others64_exact t : within_int64 t → others64 t = others t.
Proof.
  intros Ht. unfold others64, others, series_sum.
  rewrite category_counts64_exact by done. apply sum64_exact.
  unfold iloc_from. rewrite fmap_drop.
  eapply Z.le_lt_trans; [apply Zsum_abs_drop|].
  eapply Z.le_lt_trans; [|exact Ht].
  unfold category_counts.
  rewrite (Zsum_perm _ (Z.abs <$> (groupby_sum category t).*2)).
  - apply groupby_sum_abs.
  - by rewrite sort_values_desc_perm.
Qed.

Lemma top_categories64_exact t :
  within_int64 t → top_categories64 t = top_categories t.
Proof.
  intros Ht. unfold top_categories64, top_categories.
  by rewrite others64_exact, category_counts64_exact.
Qed.

Lemma yearly_trend64_exact t : within_int64 t → yearly_trend64 t = yearly_trend t.
Proof. apply groupby_sum64_exact. Qed.

Lemma station_locations64_exact t :
  within_int64 t → station_locations64 t = station_locations t.
Proof. apply groupby_sum64_exact. Qed.

Lemma hotspot_data64_exact t : within_int64 t → hotspot_data64 t = hotspot_data t.
Proof.
  intros Ht. unfold hotspot_data64, hotspot_data, hotspot_totals.
  by rewrite groupby_sum64_exact.
Qed.
End Int64Views.

(** * The claims *)

Section Claims.
Context {F : Type} `{EqDecision F, KeyOrd F}.
Implicit Types (t : table F).





(** C7. On the table without rows, each of the five aggregations is the
    empty view, and run on a store that holds that table each of them ends
    normally with a Series that reads as the empty view. *)
Theorem empty_table_views (σ : state F) (data : loc) :
  heap σ !! data = Some (ODataFrame []) →
  (station_counts ([] : table F) = [] ∧ top_categories ([] : table F) = [] ∧
   yearly_trend ([] : table F) = [] ∧ station_locations ([] : table F) = [] ∧
   hotspot_data ([] : table F) = []) ∧
  returns_series (station_counts_m data) σ [] ∧
  returns_series (category_counts_m data ≫= top_categories_m) σ [] ∧
  returns_series (yearly_trend_m data) σ [] ∧
  returns_series (station_locations_m data) σ [] ∧
  returns_series (hotspot_data_m data) σ [].
Proof.
  destruct σ as [h scr]. simpl. intros Hd. split; [done|]. split_and!.
  - apply (computes_returns _ _ _ _ (station_counts_m_computes _ _ _ Hd)).
  - apply (computes_returns _ _ _ _ (top_categories_m_computes _ _ _ Hd)).
  - apply (computes_returns _ _ _ _ (yearly_trend_m_computes _ _ _ Hd)).
  - apply (computes_returns _ _ _ _ (station_locations_m_computes _ _ _ Hd)).
  - apply (computes_returns _ _ _ _ (hotspot_data_m_computes _ _ _ Hd)).
Qed.
End Claims.

Section CategoryClaims.
Context {F : Type} `{EqDecision F, KeyOrd F}.
Implicit Types (t : table F).

Lemma category_counts_nonneg t :
  nonneg_counts t → Forall (λ v, 0 ≤ v) (category_counts t).*2.
Proof.
  intros Hnn. apply Forall_fmap, Forall_forall. intros [k v] Hkv. simpl.
  unfold category_counts in Hkv. rewrite sort_values_desc_perm in Hkv.
  apply (groupby_sum_grouped category t) in Hkv as [_ ->].
  by apply sum_where_nonneg.
Qed.

Lemma others_nonneg t : nonneg_counts t → 0 ≤ others t.
Proof.
  intros Hnn. unfold others, series_sum, iloc_from. apply Zsum_nonneg.
  rewrite fmap_drop. apply Forall_drop. by apply category_counts_nonneg.
Qed.

Lemma category_counts_sum t :
  series_sum (category_counts t) =
  Zsum (crime_count <$> filter (λ r, is_Some (category r)) t).
Proof.
  unfold category_counts.
  rewrite (series_sum_perm _ _ (sort_values_desc_perm _)).
  apply groupby_sum_total.
Qed.

Lemma top_plus_others t :
  series_sum (head 8 (category_counts t)) + others t = series_sum (category_counts t).
Proof. apply series_sum_take_drop. Qed.


(** C1, as amended. For every table within the int64 range, with
    non-negative counts, no row without a category, more than 8 distinct
    categories and no category named "Others" among the 8 largest: the
    category totals and the view the script computes are the exact ones;
    the category totals are the grouping by category sorted in descending
    order; the view is the 8 largest followed by one "Others" entry holding
    the sum of the excluded totals, added exactly when that sum is not
    zero; and the values of the view sum to the grand total of
    [crime_count]. *)
Theorem top_categories_spec t :
  within_int64 t →
  nonneg_counts t → Forall (λ r, is_Some (category r)) t →
  (8 < length (category_counts t))%nat →
  "Others" ∉ (head 8 (category_counts t)).*1 →
  (category_counts64 t = category_counts t ∧
   top_categories64 t = top_categories t) ∧
  (∃ g, grouped_by category t g ∧ descending_sort_of (category_counts t) g) ∧
  length (head 8 (category_counts t)) = 8%nat ∧
  top_categories t =
    head 8 (category_counts t) ++
    (if decide (others t = 0) then [] else [("Others", others t)]) ∧
  series_sum (head 8 (category_counts t)) + others t = total_crime_count t ∧
  series_sum (top_categories t) = total_crime_count t.
Proof.
  intros Ht Hnn Hcat Hlen Hfree.
  assert (series_sum (category_counts t) = total_crime_count t) as Htot.
  { unfold category_counts.
    rewrite (series_sum_perm _ _ (sort_values_desc_perm _)).
    by apply groupby_sum_total_complete. }
  assert (top_categories t =
    head 8 (category_counts t) ++
    (if decide (others t = 0) then [] else [("Others", others t)])) as Htop.
  { unfold top_categories. pose proof (others_nonneg t Hnn) as Hge.
    destruct (decide (others t = 0)) as [->|Hne].
    - simpl. by rewrite app_nil_r.
    - rewrite (proj2 (Z.ltb_lt _ _)) by lia. unfold setitem.
      by rewrite (proj2 (get_loc_None _ _) Hfree). }
  split; [|split; [|split; [|split; [done|split]]]].
  - split; [by apply category_counts64_exact|by apply top_categories64_exact].
  - exists (groupby_sum category t).
    split; [apply groupby_sum_grouped|apply sorted_groupby_spec].
  - unfold head. rewrite length_take. lia.
  - by rewrite top_plus_others.
  - rewrite Htop, series_sum_app, <- Htot, <- top_plus_others.
    destruct (decide (others t = 0)) as [->|]; unfold series_sum; simpl; lia.
Qed.

End CategoryClaims.

Section EffectClaims.
Context {F : Type} `{EqDecision F, KeyOrd F}.
Implicit Types (t : table F) (σ : state F) (env : environment F).

(** C9. Run on a store that holds the loaded table at [data], the five
    aggregations end normally and the object at [data] is the same table
    afterwards, as is every other object the store held; and whenever the
    whole page, with its calls to the toolkit, ends normally, the same is
    true of the store it ends in. *)
Theorem data_analysis_leaves_table σ (data : loc) t :
  heap σ !! data = Some (ODataFrame t) →
  (∃ σ', aggregations data σ = Some ((), σ') ∧
         heap σ' !! data = Some (ODataFrame t) ∧
         ∀ l o, heap σ !! l = Some o → heap σ' !! l = Some o) ∧
  (∀ σ', data_analysis data σ = Some ((), σ') →
         heap σ' !! data = Some (ODataFrame t) ∧
         ∀ l o, heap σ !! l = Some o → heap σ' !! l = Some o).
Proof.
  destruct σ as [h scr]. simpl. intros Hd. split.
  - destruct (aggregations_run h scr data t Hd) as (h' & Hrun & Hframe).
    exists (State h' scr). simpl. eauto.
  - intros σ' Hrun.
    pose proof (data_analysis_frame h scr data t σ' Hd Hrun) as Hframe. eauto.
Qed.

(** X18. Loading never raises: it ends with a reference to the table
    read, or with [data] unset and the store untouched when reading
    raised. *)
Lemma try_load_data_returns env σ :
  ∃ d σ', try_load_data env σ = Some (d, σ') ∧
    match d with
    | Some l => ∃ t, read_csv env = Returned t ∧ heap σ' !! l = Some (ODataFrame t)
    | None => (∃ exn, read_csv env = Raised exn) ∧ σ' = σ
    end.
Proof.
  unfold try_load_data, load_data. destruct (read_csv env) as [t|exn].
  - eexists (Some _), _. split; [reflexivity|]. exists t. split; [done|].
    simpl. by apply list_lookup_middle.
  - exists None, σ. eauto.
Qed.

(** The home and about pages do not look at the environment. *)
Lemma static_pages env env' :
  render env Home = render env' Home ∧
  render env AboutResearch = render env' AboutResearch.
Proof.
  unfold render, app, try_load_data, load_data.
  by destruct (read_csv env), (read_csv env').
Qed.

(** C8. When reading the file raises, the load ends normally with [data]
    unset; the overview and the analysis pages each show a warning; the
    home and about pages show what they show with any other environment. *)
Theorem load_failure_is_contained env exn :
  read_csv env = Raised exn →
  try_load_data env initial = Some (None, initial) ∧
  render env DatasetOverview =
    Some (chrome_top ++
          [StTitle "📁 Dataset Overview";
           StWarning "Dataset not found. Please add crime_data.csv in the data folder."] ++
          footer) ∧
  render env DataAnalysis =
    Some (chrome_top ++
          [StTitle "📈 Data Analysis & Trends";
           StWarning "No data available for analysis."] ++
          footer) ∧
  render env Home =
    Some (chrome_top ++
          [StTitle "📊 Crime Data Analysis Dashboard";
           StSubheader "Exploratory Analysis of Crime Patterns in Mpumalanga";
           StMarkdown home_markdown;
           StImage "assets/cover.jpeg" "Crime Analysis Overview"] ++
          footer) ∧
  render env AboutResearch =
    Some (chrome_top ++
          [StTitle "📚 About This Research"; StMarkdown about_markdown] ++
          footer) ∧
  ∀ env', render env Home = render env' Home ∧
          render env AboutResearch = render env' AboutResearch.
Proof.
  intros Hcsv. split_and!; try apply static_pages;
    unfold render, app, try_load_data, load_data; by rewrite Hcsv.
Qed.
End EffectClaims.

(** ** The claims on the sample tables *)

(** The specification's example: one station total of 8, the two yearly
    totals, one station location. *)
Example two_years_views :
  station_counts two_years = [("A", 8)] ∧
  yearly_trend two_years = [(2020, 5); (2021, 3)] ∧
  station_locations two_years = [(("A", 1, 2), 8)].
Proof. repeat split; vm_compute; reflexivity. Qed.


Lemma incident_complete s c x y yr n : complete (incident s c x y yr n).
Proof. repeat split; by eexists. Defined.

Lemma nine_categories_complete : Forall complete nine_categories.
Proof. repeat constructor; apply incident_complete. Defined.

Lemma nine_categories_nonneg : nonneg_counts nine_categories.
Proof. repeat constructor; vm_compute; congruence. Defined.


(** C1 fails as stated: with more than 8 categories of which the largest is
    called "Others", the assignment overwrites that entry; the view has 8
    entries, no residual entry is added, and its values sum to 450 while
    the grand total is 545. *)
Lemma others_in_top_breaks_total :
  nonneg_counts others_in_top ∧ Forall complete others_in_top ∧
  (8 < length (category_counts others_in_top))%nat ∧
  length (top_categories others_in_top) = 8%nat ∧
  others others_in_top = 30 ∧
  series_sum (top_categories others_in_top) = 450 ∧
  total_crime_count others_in_top = 545 ∧
  series_sum (top_categories others_in_top) ≠ total_crime_count others_in_top.
Proof.
  split; [repeat constructor; vm_compute; congruence|].
  split; [repeat constructor; apply incident_complete|].
  repeat split; vm_compute; first [reflexivity | congruence | lia].
Qed.

Lemma nine_categories_within : within_int64 nine_categories.
Proof. vm_compute. reflexivity. Defined.




Lemma top_categories_spec_witness :
  within_int64 nine_categories ∧
  nonneg_counts nine_categories ∧
  Forall (λ r, is_Some (category r)) nine_categories ∧
  (8 < length (category_counts nine_categories))%nat ∧
  ("Others" ∉ (head 8 (category_counts nine_categories)).*1) ∧
  top_categories64 nine_categories = top_categories nine_categories ∧
  top_categories nine_categories =
    head 8 (category_counts nine_categories) ++
    (if decide (others nine_categories = 0) then []
     else [("Others", others nine_categories)]) ∧
  series_sum (top_categories nine_categories) = total_crime_count nine_categories.
Proof.
  assert (Forall (λ r, is_Some (category r)) nine_categories) as Hcat.
  { eapply Forall_impl; [exact nine_categories_complete|]. by intros r (_ & Hc & _). }
  assert (8 < length (category_counts nine_categories))%nat as Hlen.
  { vm_compute. lia. }
  assert ("Others" ∉ (head 8 (category_counts nine_categories)).*1) as Hfree.
  { apply get_loc_None. vm_compute. reflexivity. }
  destruct (top_categories_spec nine_categories nine_categories_within
              nine_categories_nonneg Hcat Hlen Hfree)
    as ((_ & H64) & _ & _ & Htop & _ & Hsum).
  exact (conj nine_categories_within
           (conj nine_categories_nonneg
              (conj Hcat (conj Hlen (conj Hfree (conj H64 (conj Htop Hsum))))))).
Defined.


Lemma data_analysis_leaves_table_witness :
  heap store_others !! 0%nat = Some (ODataFrame others_in_top) ∧
  (∃ σ', aggregations 0%nat store_others = Some ((), σ') ∧
         heap σ' !! 0%nat = Some (ODataFrame others_in_top)) ∧
  (∃ σ', data_analysis 0%nat store_others = Some ((), σ') ∧
         heap σ' !! 0%nat = Some (ODataFrame others_in_top)).
Proof.
  assert (heap store_others !! 0%nat = Some (ODataFrame others_in_top)) as Hd
    by reflexivity.
  destruct (data_analysis_leaves_table store_others 0%nat others_in_top Hd)
    as ((σ1 & Hrun1 & Hdata1 & _) & Hpage).
  destruct (data_analysis 0%nat store_others) as [[[] σ2]|] eqn:Hrun2;
    [|vm_compute in Hrun2; discriminate].
  destruct (Hpage σ2 eq_refl) as [Hdata2 _].
  exact (conj Hd (conj (ex_intro _ σ1 (conj Hrun1 Hdata1))
                       (ex_intro _ σ2 (conj eq_refl Hdata2)))).
Defined.

Lemma load_failure_is_contained_witness :
  read_csv no_file = Raised "FileNotFoundError" ∧
  try_load_data no_file initial = Some (None, initial) ∧
  render no_file DataAnalysis =
    Some (chrome_top ++
          [StTitle "📈 Data Analysis & Trends";
           StWarning "No data available for analysis."] ++
          footer).
Proof.
  assert (read_csv no_file = Raised "FileNotFoundError") as Hcsv by reflexivity.
  destruct (load_failure_is_contained no_file _ Hcsv) as (Hload & _ & Han & _).
  exact (conj Hcsv (conj Hload Han)).
Defined.

Lemma empty_table_views_witness :
  heap store_empty !! 0%nat = Some (ODataFrame []) ∧
  returns_series (station_counts_m 0%nat) store_empty [] ∧
  returns_series (hotspot_data_m 0%nat) store_empty [].
Proof.
  assert (heap store_empty !! 0%nat = Some (ODataFrame [])) as Hd by reflexivity.
  destruct (empty_table_views store_empty 0%nat Hd) as (_ & Hs & _ & _ & _ & Hh).
  exact (conj Hd (conj Hs Hh)).
Defined.

(** C1 also fails on rows without a category: they are in no group, so
    the 8 largest totals and the "Others" entry, which is appended here, sum
    to 450 while the grand total is 457. *)
Example missing_category_breaks_total :
  nonneg_counts missing_category ∧
  (8 < length (category_counts missing_category))%nat ∧
  top_categories missing_category =
    head 8 (category_counts missing_category) ++ [("Others", 10)] ∧
  series_sum (top_categories missing_category) = 450 ∧
  total_crime_count missing_category = 457.
Proof.
  split; [repeat constructor; vm_compute; congruence|].
  split; [vm_compute; lia|]. by vm_compute.
Qed.

(** * Further properties of the views *)

Section MoreViews.
Context {F : Type} `{EqDecision F, KeyOrd F}.
Implicit Types (t : table F).

Lemma accumulate_length {K} `{EqDecision K} (k : K) v (acc : series K) :
  (length (accumulate k v acc) ≤ S (length acc))%nat.
Proof.
  induction acc as [|[k0 v0] acc IH]; simpl; [lia|].
  destruct (decide (k = k0)); simpl; lia.
Qed.

Lemma foldl_group_length {K} `{EqDecision K} (key : row F → option K) t
    (acc : series K) :
  (length (foldl (group_step key) acc t) ≤ length acc + length t)%nat.
Proof.
  revert acc. induction t as [|r t IH]; intros acc; simpl; [lia|].
  etrans; [apply IH|]. unfold group_step. destruct (key r); [|lia].
  pose proof (accumulate_length k (crime_count r) acc). lia.
Qed.

Lemma groupby_sum_length {K} `{EqDecision K, KeyOrd K} (key : row F → option K) t :
  (length (groupby_sum key t) ≤ length t)%nat.
Proof.
  rewrite (Permutation_length (groupby_sum_perm key t)).
  apply (foldl_group_length key t []).
Qed.

Lemma groupby_sum_entry {K} `{EqDecision K, KeyOrd K} (key : row F → option K)
    t k v :
  (k, v) ∈ groupby_sum key t →
  (∃ r, r ∈ t ∧ key r = Some k) ∧ v = sum_where key k t.
Proof. intros Hkv. by apply (groupby_sum_grouped key t). Qed.

Lemma sorted_groupby_NoDup {K} `{EqDecision K, KeyOrd K} (key : row F → option K) t :
  NoDup (sort_values_desc (groupby_sum key t)).*1.
Proof.
  rewrite (sort_values_desc_perm (groupby_sum key t)).
  apply (groupby_sum_grouped key t).
Qed.

Lemma NoDup_take {A} (l : list A) n : NoDup l → NoDup (take n l).
Proof.
  intros Hnd. rewrite <- (take_drop n l) in Hnd. by apply NoDup_app in Hnd as [? _].
Qed.

Lemma head_dominates {K} (s : series K) n (x y : K * Z) :
  non_increasing s → x ∈ head n s → y ∈ iloc_from n s → y.2 ≤ x.2.
Proof.
  unfold non_increasing, head, iloc_from. intros Hs Hx Hy.
  apply Sorted_StronglySorted in Hs; [|intros ???; lia].
  rewrite <- (take_drop n s) in Hs.
  by apply (StronglySorted_app_1_elem_of _ _ _ x y) in Hs.
Qed.

(** X1. On a table within the int64 range, the station-locations view
    the script computes is the exact one; it has one row per distinct
    triple ([station], [location_x], [location_y]) that some row of the
    table has, holding the sum of [crime_count] over the rows with that
    triple, and never more rows than the table. *)
Theorem station_locations_spec t :
  within_int64 t →
  station_locations64 t = station_locations t ∧
  NoDup (station_locations t).*1 ∧
  (∀ s x y v, ((s, x, y), v) ∈ station_locations t ↔
     (∃ r, r ∈ t ∧ station r = Some s ∧ location_x r = Some x ∧
           location_y r = Some y) ∧
     v = Zsum (crime_count <$>
               filter (λ r, station r = Some s ∧ location_x r = Some x ∧
                            location_y r = Some y) t)) ∧
  (length (station_locations t) ≤ length t)%nat.
Proof.
  intros Ht. split; [by apply station_locations64_exact|].
  destruct (groupby_sum_grouped station_location t) as [Hnd Hin].
  split; [done|]. split; [|apply groupby_sum_length].
  intros s x y v. unfold station_locations.
  rewrite Hin, sum_where_station_location.
  by setoid_rewrite station_location_Some.
Qed.





(** X6. On a table within the int64 range, the category view the script
    computes is the exact one, and every entry of it under a label other
    than "Others" is a category of the table with the sum of [crime_count]
    over its rows. *)
Theorem shown_categories_are_totals t k v :
  within_int64 t →
  (k, v) ∈ top_categories64 t → k ≠ "Others" →
  (k, v) ∈ top_categories t ∧
  (∃ r, r ∈ t ∧ category r = Some k) ∧ v = sum_where category k t.
Proof.
  intros Ht Hkv Hk. rewrite top_categories64_exact in Hkv by done.
  split; [done|].
  assert ((k, v) ∈ head 8 (category_counts t)) as Hin.
  { unfold top_categories in Hkv. destruct (0 <? others t); [|done].
    unfold setitem in Hkv.
    destruct (get_loc "Others" (head 8 (category_counts t)).*1) as [i|].
    - apply list_elem_of_lookup in Hkv as [j Hj].
      destruct (decide (i = j)) as [->|Hij].
      + apply list_lookup_insert_Some in Hj as [(_ & [=] & _)|[? _]]; congruence.
      + rewrite list_lookup_insert_ne in Hj by done.
        by eapply list_elem_of_lookup_2.
    - apply elem_of_app in Hkv as [?|Hkv%list_elem_of_singleton]; [done|].
      congruence. }
  apply (groupby_sum_entry category t).
  rewrite <- (sort_values_desc_perm (groupby_sum category t)).
  unfold head in Hin. apply elem_of_take in Hin as (i & Hi & _). by eapply list_elem_of_lookup_2.
Qed.

End MoreViews.

(** ** Row order, key order, assignment *)

Lemma string_leb_trans (s1 s2 s3 : string) :
  String.leb s1 s2 = true → String.leb s2 s3 = true → String.leb s1 s3 = true.
Proof.
  unfold String.leb. revert s2 s3.
  induction s1 as [|a s1 IH]; intros [|b s2] [|c s3]; simpl; try done.
  unfold Ascii.compare.
  destruct (N.compare_spec (Ascii.N_of_ascii a) (Ascii.N_of_ascii b)),
           (N.compare_spec (Ascii.N_of_ascii b) (Ascii.N_of_ascii c)),
           (N.compare_spec (Ascii.N_of_ascii a) (Ascii.N_of_ascii c));
    try done; try lia; eauto.
Qed.

Section KeyOrderFacts.
Context {K : Type} `{EqDecision K, KeyOrd K}.

(** A lawful key order: total, transitive and antisymmetric. *)
Hypothesis key_leb_total : ∀ a b : K, key_leb a b = true ∨ key_leb b a = true.
Hypothesis key_leb_trans :
  ∀ a b c : K, key_leb a b = true → key_leb b c = true → key_leb a c = true.
Hypothesis key_leb_antisym :
  ∀ a b : K, key_leb a b = true → key_leb b a = true → a = b.

Lemma isort_keys_unique (g g' : series K) :
  NoDup g.*1 → g ≡ₚ g' →
  isort (λ a b, key_leb a.1 b.1) g = isort (λ a b, key_leb a.1 b.1) g'.
Proof.
  intros Hnd Hp.
  set (R := λ a b : K * Z, key_leb a.1 b.1 = true).
  assert (Transitive R) as Htrans.
  { intros a b c. unfold R. apply key_leb_trans. }
  assert (∀ l, StronglySorted R (isort (λ a b, key_leb a.1 b.1) l)) as Hsorted.
  { intros l. apply Sorted_StronglySorted; [done|]. apply isort_Sorted.
    intros x y Hxy. destruct (key_leb_total x.1 y.1); congruence. }
  apply (StronglySorted_unique_strong R); [|done|done|].
  - intros x1 x2 Hx1 Hx2 H12 H21.
    rewrite isort_perm in Hx1. rewrite isort_perm, <- Hp in Hx2.
    pose proof (key_leb_antisym _ _ H12 H21) as Hk.
    destruct x1 as [k1 v1], x2 as [k2 v2]. simpl in Hk. subst k2.
    apply (bucket_elem_of g k1 v1 Hnd) in Hx1 as [_ <-].
    by apply (bucket_elem_of g k1 v2 Hnd) in Hx2 as [_ <-].
  - by rewrite !isort_perm.
Qed.
End KeyOrderFacts.

Section RowOrder.
Context {F : Type} `{EqDecision F, KeyOrd F}.
Implicit Types (t : table F).

Lemma sum_where_perm {K} `{EqDecision K} (key : row F → option K) k t t' :
  t ≡ₚ t' → sum_where key k t = sum_where key k t'.
Proof. intros Hp. unfold sum_where. apply Zsum_perm. by rewrite Hp. Qed.

Lemma group_sums_perm {K} `{EqDecision K} (key : row F → option K) t t' :
  t ≡ₚ t' → group_sums key t ≡ₚ group_sums key t'.
Proof.
  intros Hp.
  destruct (group_sums_grouped key t) as [Hnd Hin].
  destruct (group_sums_grouped key t') as [Hnd' Hin'].
  apply NoDup_Permutation; [by eapply NoDup_fmap_1|by eapply NoDup_fmap_1|].
  intros [k v]. rewrite Hin, Hin', (sum_where_perm key k t t' Hp).
  by setoid_rewrite Hp.
Qed.

Lemma groupby_sum_row_order {K} `{EqDecision K, KeyOrd K}
    (key : row F → option K) t t' :
  (∀ a b : K, key_leb a b = true ∨ key_leb b a = true) →
  (∀ a b c : K, key_leb a b = true → key_leb b c = true → key_leb a c = true) →
  (∀ a b : K, key_leb a b = true → key_leb b a = true → a = b) →
  t ≡ₚ t' → groupby_sum key t = groupby_sum key t'.
Proof.
  intros Htot Htrans Hanti Hp. unfold groupby_sum.
  apply isort_keys_unique; [done..| |by apply group_sums_perm].
  apply (group_sums_grouped key t).
Qed.

Lemma groupby_string_row_order (key : row F → option string) t t' :
  t ≡ₚ t' → groupby_sum key t = groupby_sum key t'.
Proof.
  apply groupby_sum_row_order.
  - apply String.leb_total.
  - apply string_leb_trans.
  - apply String.leb_antisym.
Qed.


End RowOrder.

Section AssignmentFacts.
Context {K : Type} `{EqDecision K}.

Lemma setitem_cons (k k0 : K) (v v0 : Z) (s : series K) :
  setitem k v ((k0, v0) :: s) =
  if decide (k = k0) then (k, v) :: s else (k0, v0) :: setitem k v s.
Proof.
  unfold setitem. csimpl. destruct (decide (k = k0)); [done|].
  by destruct (get_loc k s.*1).
Qed.

(** X10. Assignment at a label and reading: after [s[k] = v] the value at
    [k] is [v], the value at every other label is what it was, and the
    series is one entry longer exactly when [k] was not a label of it. *)
Theorem setitem_lookup (k : K) (v : Z) (s : series K) :
  bucket k (setitem k v s) = v ∧
  (∀ k', k' ≠ k → bucket k' (setitem k v s) = bucket k' s) ∧
  length (setitem k v s) = (if decide (k ∈ s.*1) then length s else S (length s)).
Proof.
  induction s as [|[k0 v0] s (IH1 & IH2 & IH3)].
  - unfold setitem. simpl. split_and!.
    + by case_decide.
    + intros k' Hk'. by case_decide.
    + done.
  - rewrite setitem_cons. csimpl. destruct (decide (k = k0)) as [->|Hne]; simpl.
    + split_and!.
      * by destruct (decide (k0 = k0)).
      * intros k' Hk'. by destruct (decide (k' = k0)).
      * destruct (decide (k0 ∈ k0 :: s.*1)) as [|Hnin]; [done|].
        destruct Hnin. apply list_elem_of_here.
    + split_and!.
      * by destruct (decide (k = k0)).
      * intros k' Hk'. destruct (decide (k' = k0)); [done|]. by apply IH2.
      * rewrite IH3.
        destruct (decide (k ∈ s.*1)) as [Hin|Hnin],
                 (decide (k ∈ k0 :: s.*1)) as [Hin'|Hnin']; try done.
        -- destruct Hnin'. by apply list_elem_of_further.
        -- apply elem_of_cons in Hin' as [?|?]; done.
Qed.
End AssignmentFacts.

(** ** The maps and the missing-values table *)

Section MapsAndNulls.
Context {F : Type} `{EqDecision F, KeyOrd F}.
Implicit Types (t : table F) (r : row F).



Lemma count_missing_zero {A} (col : row F → option A) t :
  count_missing col t = 0%nat ↔ Forall (λ r, is_Some (col r)) t.
Proof.
  unfold count_missing. induction t as [|r t IH]; [by split|].
  rewrite filter_cons, Forall_cons, <- IH.
  destruct (decide (col r = None)) as [Hr|Hr]; simpl.
  - split; [done|]. intros [[x Hx] _]. congruence.
  - split; [|by intros [_ ?]]. intros Hlen. split; [|done].
    destruct (col r); [by eexists|done].
Qed.

End MapsAndNulls.

(** ** The further properties on the sample tables *)


Lemma station_locations_spec_witness :
  within_int64 nine_categories ∧
  station_locations64 nine_categories = station_locations nine_categories ∧
  (length (station_locations nine_categories) ≤ length nine_categories)%nat.
Proof.
  destruct (station_locations_spec nine_categories nine_categories_within)
    as (H64 & _ & _ & Hlen).
  exact (conj nine_categories_within (conj H64 Hlen)).
Defined.

Lemma shown_categories_are_totals_witness :
  within_int64 nine_categories ∧
  ("Assault", 90) ∈ top_categories64 nine_categories ∧ "Assault" ≠ "Others" ∧
  90 = sum_where category "Assault" nine_categories.
Proof.
  assert (("Assault", 90) ∈ top_categories64 nine_categories) as Hin.
  { vm_compute. apply list_elem_of_here. }
  assert ("Assault" ≠ "Others") as Hne by discriminate.
  destruct (shown_categories_are_totals nine_categories "Assault" 90
              nine_categories_within Hin Hne) as (_ & _ & Hv).
  exact (conj nine_categories_within (conj Hin (conj Hne Hv))).
Defined.




(** The views of a table with a row without coordinates: the row counts
    for its station and category, and is on neither map. *)
Example no_coordinates_views :
  series_sum (station_totals no_coordinates) = total_crime_count no_coordinates ∧
  series_sum (hotspot_totals no_coordinates) = total_crime_count no_coordinates - 4 ∧
  station_points (station_locations no_coordinates) =
  station_points (station_locations nine_categories).
Proof. repeat split; vm_compute; reflexivity. Qed.

(** * The limits of the page: the int64 range and the toolkit *)

Section Limits.
Context {F : Type} `{EqDecision F, KeyOrd F}.
Implicit Types (t : table F) (env : environment F).

(** X20. On a table within the int64 range no addition wraps: the five
    groupings the script computes in the column's arithmetic are the
    groupings with exact sums, and so is the sum of the excluded category
    totals. *)
Theorem int64_sums_exact t :
  within_int64 t →
  groupby_sum64 station t = groupby_sum station t ∧
  groupby_sum64 category t = groupby_sum category t ∧
  groupby_sum64 year t = groupby_sum year t ∧
  groupby_sum64 station_location t = groupby_sum station_location t ∧
  groupby_sum64 location t = groupby_sum location t ∧
  others64 t = others t.
Proof.
  intros Ht. split_and!; first [by apply groupby_sum64_exact|by apply others64_exact].
Qed.

Lemma group_sums64_no_key {K} `{EqDecision K} (key : row F → option K) t :
  Forall (λ r, key r = None) t → group_sums64 key t = [].
Proof.
  unfold group_sums64. induction 1 as [|r t Hr _ IH]; [done|].
  simpl. unfold group_step64 at 2. by rewrite Hr.
Qed.

Lemma bind_None {A B} (m : M A) (k : A → M B) (σ : state F) :
  m σ = None → (m ≫= k) σ = None.
Proof. unfold mbind, M_bind. by intros ->. Qed.

Lemma crime_by_station_raises h scr data t :
  h !! data = Some (ODataFrame t) → station_counts64 t = [] →
  crime_by_station data (State h scr) = None.
Proof.
  intros Hd Hempty. unfold crime_by_station.
  erewrite bind_run by apply emit_run.
  destruct (station_counts_m_computes h data t Hd
              (scr ++ [StSubheader "🏢 Crime by Police Station"]))
    as (s & h' & Hrun & Hs & _).
  erewrite bind_run by exact Hrun.
  erewrite bind_run by (eapply items_run, Hs).
  by rewrite Hempty.
Qed.

(** X21. When the file loads and no row of it has a station (the table
    without rows included), the analysis page raises at its first chart:
    the run shows nothing of the page and does not reach the footer. *)
Theorem analysis_needs_stations env t :
  read_csv env = Returned t → Forall (λ r, station r = None) t →
  render env DataAnalysis = None.
Proof.
  intros Hcsv Hst. unfold render.
  assert (app env DataAnalysis initial = None) as ->; [|done].
  unfold app, try_load_data, load_data. rewrite Hcsv.
  erewrite bind_run by reflexivity.
  erewrite bind_run by apply emit_run.
  apply bind_None. unfold data_analysis_page.
  erewrite bind_run by apply emit_run.
  unfold data_analysis. apply bind_None.
  apply (crime_by_station_raises _ _ _ t); [done|].
  unfold station_counts64, groupby_sum64. by rewrite group_sums64_no_key.
Qed.

(** X22. Whatever the data file, the screenshots page shows a warning when
    the folder does not exist and a notice when it exists and is empty, and
    the run ends with the footer. *)
Theorem screenshots_without_images (csv : outcome (table F)) :
  render (Environment csv None) Screenshots =
    Some (chrome_top ++
          [StTitle "🖼️ Research Screenshots"; StMarkdown screenshots_markdown;
           StWarning "Please create a 'screenshots' folder and add your images."] ++
          footer) ∧
  render (Environment csv (Some [])) Screenshots =
    Some (chrome_top ++
          [StTitle "🖼️ Research Screenshots"; StMarkdown screenshots_markdown;
           StInfo "No screenshots found in the folder."] ++
          footer).
Proof. by destruct csv. Qed.
End Limits.

Lemma int64_sums_exact_witness :
  within_int64 others_in_top ∧ others64 others_in_top = others others_in_top.
Proof.
  assert (within_int64 others_in_top) as Ht by (vm_compute; reflexivity).
  destruct (int64_sums_exact others_in_top Ht) as (_ & _ & _ & _ & _ & Ho).
  exact (conj Ht Ho).
Defined.

Lemma analysis_needs_stations_witness :
  read_csv env_missing_station = Returned missing_station ∧
  Forall (λ r, station r = None) missing_station ∧
  render env_missing_station DataAnalysis = None.
Proof.
  assert (Forall (λ r : row Z, station r = None) missing_station) as Hst
    by (by repeat constructor).
  exact (conj eq_refl (conj Hst
           (analysis_needs_stations env_missing_station missing_station eq_refl Hst))).
Defined.

(** X23. Two rows of 2^62 for one station are outside the range: their
    total wraps to -2^63, which puts the station last in the chart, where
    the exact sum would put it first. *)
Example overflowing_station_total :
  ¬ within_int64 overflowing ∧
  station_counts64 overflowing = [("B", 1); ("A", -9223372036854775808)] ∧
  station_counts overflowing = [("A", 9223372036854775808); ("B", 1)].
Proof. split; [by vm_compute|]. split; vm_compute; reflexivity. Qed.

(** The same two rows under a tenth category: its total wraps below every
    other, it is excluded, the excluded sum is negative and no "Others"
    entry is made, so the view sums to 440 of a total of more than 2^63. *)
Example overflowing_category_total :
  top_categories64 overflowing_category = head 8 (category_counts nine_categories) ∧
  others64 overflowing_category = -9223372036854775798 ∧
  series_sum (top_categories64 overflowing_category) = 440 ∧
  total_crime_count overflowing_category = 9223372036854776258.
Proof. repeat split; vm_compute; reflexivity. Qed.
